(** * lleaves: the compile-cache-execute pipeline of [lleaves.Model]

    A shallow embedding of [src/lleaves/lleaves.py].  The Python class
    [Model] caches four attributes ([_IR_module_frontend], [_IR_module],
    [_execution_engine], [_c_entry_func]); its methods are embedded as
    computations in a small state-and-exception monad over a process
    state that holds the class object, the instances, the JIT engines,
    the file system and a trace of the calls made to the external
    collaborators (llvmlite, the lleaves frontend, the native code). *)

From Stdlib Require Import ZArith Lia.
From stdpp Require Import base option list strings gmap.

Set Warnings "-register-all".
Open Scope string_scope.

(** ** Python values handed to [predict], and the numpy arrays built from them *)

(** The element buffer of an array, in logical row-major (C) order.
    [BufInt] stands for an array of integers of any dtype other than
    [float64] (a fixed-width integer dtype, or [object] when a Python
    integer exceeds 64 bits); [BufObject] for an [object] array that
    mixes doubles and integers. *)
Inductive buffer (F : Type) : Type :=
| BufFloat64 (xs : list F)
| BufInt (xs : list Z)
| BufObject (xs : list (F + Z)).
Arguments BufFloat64 {F} xs.
Arguments BufInt {F} xs.
Arguments BufObject {F} xs.

Record ndarray (F : Type) : Type := mk_ndarray {
  shape : list nat;
  elems : buffer F
}.
Arguments mk_ndarray {F} shape elems.
Arguments shape {F} n.
Arguments elems {F} n.

Inductive pyobj (F : Type) : Type :=
| PyFloat (x : F)
| PyInt (z : Z)
| PyList (xs : list (pyobj F))
| PyTuple (xs : list (pyobj F))
| PyNdarray (a : ndarray F).
Arguments PyFloat {F} x.
Arguments PyInt {F} z.
Arguments PyList {F} xs.
Arguments PyTuple {F} xs.
Arguments PyNdarray {F} a.

(** [type(data)], as it is printed in an error message. *)
Inductive pytype : Type := TyFloat | TyInt | TyList | TyTuple | TyNdarray.

Definition type_of {F} (o : pyobj F) : pytype :=
  match o with
  | PyFloat _ => TyFloat
  | PyInt _ => TyInt
  | PyList _ => TyList
  | PyTuple _ => TyTuple
  | PyNdarray _ => TyNdarray
  end.

Section Numpy.
Context {F : Type}.
(** Conversion of an integer element to double precision; [None] when
    the integer is out of the range of a double ([OverflowError]). *)
Variable f64_of_int : Z -> option F.

(** The elements of a buffer as Python scalars. *)
Definition scalars (b : buffer F) : list (F + Z) :=
  match b with
  | BufFloat64 xs => inl <$> xs
  | BufInt xs => inr <$> xs
  | BufObject xs => xs
  end.

(** [float(s)] for a scalar. *)
Definition to_float64 (s : F + Z) : option F :=
  match s with
  | inl x => Some x
  | inr z => f64_of_int z
  end.

(** [np.array(b, dtype=np.float64)]: the elements as doubles, [None]
    when one of them does not convert. *)
Definition as_float64 (b : buffer F) : option (list F) :=
  match b with
  | BufFloat64 xs => Some xs
  | BufInt xs => mapM f64_of_int xs
  | BufObject xs => mapM to_float64 xs
  end.

(** Concatenation of two buffers, with numpy's type promotion: doubles
    mixed with integers give doubles, unless an integer is out of range,
    which leaves an [object] array. *)
Definition buffer_app (b1 b2 : buffer F) : buffer F :=
  match b1, b2 with
  | BufFloat64 xs, BufFloat64 ys => BufFloat64 (xs ++ ys)
  | BufInt xs, BufInt ys => BufInt (xs ++ ys)
  | _, _ =>
      match mapM to_float64 (scalars b1 ++ scalars b2) with
      | Some xs => BufFloat64 xs
      | None => BufObject (scalars b1 ++ scalars b2)
      end
  end.

(** Stacking the already converted items of a sequence: all items must
    have the same shape, otherwise numpy refuses the ragged sequence. *)
Fixpoint np_stack (items : list (option (ndarray F))) : option (list nat * buffer F) :=
  match items with
  | [] => None
  | [Some a] => Some (shape a, elems a)
  | Some a :: rest =>
      match np_stack rest with
      | Some (sh, b) =>
          if decide (shape a = sh) then Some (sh, buffer_app (elems a) b) else None
      | None => None
      end
  | None :: _ => None
  end.

(** [np.array(o)] for an arbitrary object; [None] when numpy raises.
    An empty sequence gives an empty [float64] array of shape [(0,)]. *)
Fixpoint np_asarray (o : pyobj F) : option (ndarray F) :=
  match o with
  | PyFloat x => Some (mk_ndarray [] (BufFloat64 [x]))
  | PyInt z => Some (mk_ndarray [] (BufInt [z]))
  | PyNdarray a => Some a
  | PyList [] | PyTuple [] => Some (mk_ndarray [0] (BufFloat64 []))
  | PyList xs | PyTuple xs =>
      match np_stack (map np_asarray xs) with
      | Some (sh, b) => Some (mk_ndarray (length xs :: sh) b)
      | None => None
      end
  end.

(** [np.array(data)] where [data] is a Python list with items [xs]. *)
Definition np_array (xs : list (pyobj F)) : option (ndarray F) :=
  np_asarray (PyList xs).

End Numpy.

(** ** Outcomes *)

(** The message of a [ValueError] raised by [_to_1d_ndarray]. *)
Inductive value_error : Type :=
| CannotConvertList                       (* "Cannot convert data list to appropriate np array" *)
| ExpectingListOrNdarray (ty : pytype)    (* "Expecting list or numpy.ndarray, got {type(data)}" *)
| NotTwoDimensional (ndim : nat).         (* "Data must be 2 dimensional, is {ndim} dimensional" *)

Inductive exn : Type :=
| ValueError (v : value_error)
| TypeError (msg : string)
| FileNotFoundError (path : string)
| OverflowError                           (* "int too large to convert to float" *)
| OSError (path : string)                 (* a path that cannot be written *)
| LibraryError (msg : string).            (* raised inside an external library *)

(** A call returns, raises a Python exception, or kills the process
    (a fatal LLVM error, a jump through a null function pointer). *)
Inductive outcome (A : Type) : Type :=
| Ok (a : A)
| Raise (e : exn)
| Fault.
Arguments Ok {A} a.
Arguments Raise {A} e.
Arguments Fault {A}.

(** ** The external collaborators *)

(** [parser.parse_model_file(model_file)["general_info"]]: the two
    entries the class reads. *)
Record general_info : Type := mk_general_info {
  max_feature_idx : Z;
  objective : string
}.

(** Everything [lleaves.py] calls but does not define: the lleaves
    frontend ([parse_model_file], [ir_from_model_file],
    [get_objective_func]), llvmlite's binding layer and the native code
    behind a function address.  Each call that can fail returns an
    [outcome]. *)
Record World : Type := mk_World {
  float64 : Type;
  f64_zero : float64;
  f64_of_int : Z -> option float64;      (* float(z); None: OverflowError *)
  path_writable : string -> bool;        (* whether Path(path).write_text can write *)
  (* lleaves.tree_compiler *)
  parse_model_file : string -> outcome general_info;
  get_objective_func : string -> outcome (float64 -> float64);
  IRModule : Type;                       (* llvmlite.ir.Module *)
  ir_from_model_file : string -> outcome IRModule;
  ir_str : IRModule -> string;           (* str(ir_module) *)
  (* llvmlite.binding *)
  ModuleRef : Type;
  parse_assembly : string -> outcome ModuleRef;
  module_verify : ModuleRef -> outcome unit;
  run_passes : ModuleRef -> ModuleRef;   (* pm_module.run(module), opt_level 3, inlining_threshold 30 *)
  module_str : ModuleRef -> string;      (* str(module) *)
  TargetMachine : Type;
  create_target_machine : outcome TargetMachine;
  ExecutionEngine : Type;
  create_mcjit_compiler : ModuleRef -> TargetMachine -> outcome ExecutionEngine;
  add_module : ExecutionEngine -> ModuleRef -> outcome ExecutionEngine;
  finalize_object : ExecutionEngine -> outcome ExecutionEngine;
  run_static_constructors : ExecutionEngine -> outcome ExecutionEngine;
  get_function_address : ExecutionEngine -> string -> Z;
  (* The native routine at a non-null address, called with the input
     buffer and the count: the value it leaves in cell [i] of the output
     buffer, given the value found there.  The routine writes through a
     pointer, so it cannot change the length of the buffer. *)
  native_cell : Z -> list float64 -> Z -> nat -> float64 -> float64
}.

(** ** The process state *)

(** The ctypes function pointer [CFUNCTYPE(None, POINTER(c_double), c_int,
    POINTER(c_double))(addr)]: a fresh Python object wrapping an address. *)
Record CFuncPtr : Type := mk_CFuncPtr {
  cf_id : nat;
  cf_addr : Z
}.

(** Where [llvm.parse_assembly] is called from. *)
Inductive parse_site : Type :=
| BackingModule      (* _get_execution_engine: parse_assembly("") *)
| FrontendIR         (* _get_optimized_module *)
| LoadedIR.          (* load_model_ir *)

(** The calls that leave [lleaves.py], tagged with the instance making them. *)
Inductive event : Type :=
| EvFrontend (self : nat)                           (* ir_from_model_file *)
| EvParseAssembly (self : nat) (site : parse_site)
| EvVerify (self : nat)                             (* module.verify() *)
| EvRunPasses (self : nat)                          (* pm_module.run(module) *)
| EvInitialize (self : nat)                         (* llvm.initialize*() *)
| EvCreateTargetMachine (self : nat)
| EvCreateEngine (self : nat)                       (* llvm.create_mcjit_compiler *)
| EvAddModule (self : nat)
| EvFinalizeObject (self : nat)
| EvRunStaticConstructors (self : nat)
| EvGetFunctionAddress (self : nat) (name : string)
| EvNativeCall (self : nat) (addr : Z) (count : Z)  (* self._c_entry_func(...) *)
| EvReadText (path : string)
| EvWriteText (path : string).

Global Instance parse_site_eq_dec : EqDecision parse_site.
Proof. solve_decision. Defined.
Global Instance event_eq_dec : EqDecision event.
Proof. solve_decision. Defined.

(** How many events of a trace satisfy [P]. *)
Definition tally (P : event -> Prop) `{!forall e, Decision (P e)} (t : list event) : nat :=
  length (filter P t).

(** How often an event occurs in a trace. *)
Definition occurrences (ev : event) (t : list event) : nat :=
  tally (fun e => e = ev) t.

(** How often the native entry point was called. *)
Definition is_native_call (e : event) : bool :=
  match e with
  | EvNativeCall _ _ _ => true
  | _ => false
  end.

Definition native_calls (t : list event) : nat :=
  tally (fun e => is_native_call e = true) t.

Section Model.
Context (W : World).

#[local] Abbreviation F := (float64 W).

(** The attributes declared in the body of [class Model]; [None] is
    Python's [None]. *)
Record ModelClass : Type := mk_ModelClass {
  cls_execution_engine : option nat;
  cls_IR_module_frontend : option (IRModule W);
  cls_IR_module : option (ModuleRef W);
  cls_c_entry_func : option CFuncPtr
}.

(** The class as the [class] statement leaves it. *)
Definition Model_class : ModelClass :=
  {| cls_execution_engine := None;
     cls_IR_module_frontend := None;
     cls_IR_module := None;
     cls_c_entry_func := None |}.

(** An instance: the attributes [__init__] sets, and the entries of its
    [__dict__] for the four cached attributes; [None] means the entry is
    missing from the [__dict__], so that a read falls back to the class. *)
Record ModelObj : Type := mk_ModelObj {
  model_file : string;
  _general_info : general_info;
  objective_transf : F -> F;
  obj_execution_engine : option nat;
  obj_IR_module_frontend : option (IRModule W);
  obj_IR_module : option (ModuleRef W);
  obj_c_entry_func : option CFuncPtr
}.

Definition set_execution_engine (e : nat) (o : ModelObj) : ModelObj :=
  {| model_file := model_file o; _general_info := _general_info o;
     objective_transf := objective_transf o;
     obj_execution_engine := Some e;
     obj_IR_module_frontend := obj_IR_module_frontend o;
     obj_IR_module := obj_IR_module o;
     obj_c_entry_func := obj_c_entry_func o |}.

Definition set_IR_module_frontend (ir : IRModule W) (o : ModelObj) : ModelObj :=
  {| model_file := model_file o; _general_info := _general_info o;
     objective_transf := objective_transf o;
     obj_execution_engine := obj_execution_engine o;
     obj_IR_module_frontend := Some ir;
     obj_IR_module := obj_IR_module o;
     obj_c_entry_func := obj_c_entry_func o |}.

Definition set_IR_module (m : ModuleRef W) (o : ModelObj) : ModelObj :=
  {| model_file := model_file o; _general_info := _general_info o;
     objective_transf := objective_transf o;
     obj_execution_engine := obj_execution_engine o;
     obj_IR_module_frontend := obj_IR_module_frontend o;
     obj_IR_module := Some m;
     obj_c_entry_func := obj_c_entry_func o |}.

Definition set_c_entry_func (f : CFuncPtr) (o : ModelObj) : ModelObj :=
  {| model_file := model_file o; _general_info := _general_info o;
     objective_transf := objective_transf o;
     obj_execution_engine := obj_execution_engine o;
     obj_IR_module_frontend := obj_IR_module_frontend o;
     obj_IR_module := obj_IR_module o;
     obj_c_entry_func := Some f |}.

(** The process: the class object (shared by all instances), the
    instances and the engines by object identity, the files, the trace
    of external calls (most recent first) and the next free identity. *)
Record Process : Type := mk_Process {
  model_class : ModelClass;
  models : gmap nat ModelObj;
  engines : gmap nat (ExecutionEngine W);
  files : gmap string string;
  trace : list event;
  next_id : nat
}.

Definition set_models (ms : gmap nat ModelObj) (p : Process) : Process :=
  {| model_class := model_class p; models := ms; engines := engines p;
     files := files p; trace := trace p; next_id := next_id p |}.

Definition set_engines (es : gmap nat (ExecutionEngine W)) (p : Process) : Process :=
  {| model_class := model_class p; models := models p; engines := es;
     files := files p; trace := trace p; next_id := next_id p |}.

Definition set_files (fs : gmap string string) (p : Process) : Process :=
  {| model_class := model_class p; models := models p; engines := engines p;
     files := fs; trace := trace p; next_id := next_id p |}.

Definition set_trace (t : list event) (p : Process) : Process :=
  {| model_class := model_class p; models := models p; engines := engines p;
     files := files p; trace := t; next_id := next_id p |}.

Definition set_next_id (n : nat) (p : Process) : Process :=
  {| model_class := model_class p; models := models p; engines := engines p;
     files := files p; trace := trace p; next_id := n |}.

(** A process in which only the class statement has run. *)
Definition initial_process : Process :=
  {| model_class := Model_class; models := ∅; engines := ∅;
     files := ∅; trace := []; next_id := 0 |}.

(** ** The monad of method bodies *)

(** A method body runs on the process and returns, raises or faults;
    an exception or a fault skips the rest of the body and keeps the
    state reached so far. *)
Definition M (A : Type) : Type := Process -> outcome A * Process.

Definition ret {A} (a : A) : M A := fun p => (Ok a, p).

Definition raise {A} (e : exn) : M A := fun p => (Raise e, p).

Definition bind {A B} (m : M A) (k : A -> M B) : M B :=
  fun p =>
    match m p with
    | (Ok a, p') => k a p'
    | (Raise e, p') => (Raise e, p')
    | (Fault, p') => (Fault, p')
    end.

Notation "'let*' x ':=' m 'in' k" := (bind m (fun x => k))
  (at level 10, x name, m at level 100, k at level 200,
   format "'[v' 'let*'  x  ':='  m  'in' '/' k ']'").

(** The result of a pure computation that may raise. *)
Definition lift {A} (r : outcome A) : M A := fun p => (r, p).

(** A call to an external collaborator: recorded, then its outcome. *)
Definition call_out {A} (ev : event) (r : outcome A) : M A :=
  fun p => (r, set_trace (ev :: trace p) p).

(** [self.<field>] for an attribute that [__init__] sets. *)
Definition getfield {A} (field : ModelObj -> A) (self : nat) : M A :=
  fun p =>
    match models p !! self with
    | Some o => (Ok (field o), p)
    | None => (Fault, p)
    end.

(** Python attribute lookup [self.<attr>] for a cached attribute: the
    instance [__dict__] first, then the class. *)
Definition lookup_attr {A} (in_obj : option A) (in_class : option A) : option A :=
  match in_obj with
  | Some v => Some v
  | None => in_class
  end.

Definition getattr {A} (from_obj : ModelObj -> option A)
    (from_class : ModelClass -> option A) (self : nat) : M (option A) :=
  fun p =>
    match models p !! self with
    | Some o => (Ok (lookup_attr (from_obj o) (from_class (model_class p))), p)
    | None => (Fault, p)
    end.

(** Python attribute assignment [self.<attr> = v]: always into the
    instance [__dict__]. *)
Definition setattr (upd : ModelObj -> ModelObj) (self : nat) : M unit :=
  fun p =>
    match models p !! self with
    | Some o => (Ok tt, set_models (<[self := upd o]> (models p)) p)
    | None => (Fault, p)
    end.

(** A new engine object. *)
Definition new_engine (e : ExecutionEngine W) : M nat :=
  fun p =>
    (Ok (next_id p),
     set_next_id (S (next_id p)) (set_engines (<[next_id p := e]> (engines p)) p)).

(** A method of the engine [eng] that changes the engine in place. *)
Definition engine_call (ev : event) (eng : nat)
    (method : ExecutionEngine W -> outcome (ExecutionEngine W)) : M unit :=
  fun p =>
    match engines p !! eng with
    | Some e =>
        match method e with
        | Ok e' => (Ok tt, set_engines (<[eng := e']> (engines p)) (set_trace (ev :: trace p) p))
        | Raise x => (Raise x, set_trace (ev :: trace p) p)
        | Fault => (Fault, set_trace (ev :: trace p) p)
        end
    | None => (Fault, p)
    end.

(** A method of the engine [eng] that only reads it. *)
Definition engine_query {A} (ev : event) (eng : nat)
    (method : ExecutionEngine W -> A) : M A :=
  fun p =>
    match engines p !! eng with
    | Some e => (Ok (method e), set_trace (ev :: trace p) p)
    | None => (Fault, p)
    end.

(** A new ctypes function pointer around [addr]. *)
Definition new_cfunc (addr : Z) : M CFuncPtr :=
  fun p => (Ok (mk_CFuncPtr (next_id p) addr), set_next_id (S (next_id p)) p).

(** [Path(filepath).read_text()]: a missing file raises. *)
Definition read_text (filepath : string) : M string :=
  fun p =>
    match files p !! filepath with
    | Some text => (Ok text, set_trace (EvReadText filepath :: trace p) p)
    | None => (Raise (FileNotFoundError filepath), set_trace (EvReadText filepath :: trace p) p)
    end.

(** [Path(filepath).write_text(text)]: a path that cannot be written (a
    missing directory, a read-only location) raises and leaves the files
    alone. *)
Definition write_text (filepath text : string) : M unit :=
  fun p =>
    if path_writable W filepath
    then (Ok tt, set_files (<[filepath := text]> (files p)) (set_trace (EvWriteText filepath :: trace p) p))
    else (Raise (OSError filepath), set_trace (EvWriteText filepath :: trace p) p).

(** ** Truth values *)

(** [if x:] for a ctypes function pointer: a pointer is true exactly when
    it is not null. *)
Definition truthy_cfunc (v : option CFuncPtr) : bool :=
  match v with
  | Some f => negb (cf_addr f =? 0)%Z
  | None => false
  end.

(** ** The methods of [Model] *)

(** [Model(model_file)] (lines 24-29): a new instance; the cached
    attributes are not in its [__dict__]. *)
Definition Model_init (file : string) : M nat :=
  let* info := lift (parse_model_file W file) in
  let* transf := lift (get_objective_func W (objective info)) in
  fun p =>
    (Ok (next_id p),
     set_next_id (S (next_id p))
       (set_models
          (<[next_id p :=
               {| model_file := file; _general_info := info;
                  objective_transf := transf;
                  obj_execution_engine := None;
                  obj_IR_module_frontend := None;
                  obj_IR_module := None;
                  obj_c_entry_func := None |}]> (models p)) p)).

(** [num_feature] (lines 31-33). *)
Definition num_feature (self : nat) : M Z :=
  let* info := getfield _general_info self in
  ret (max_feature_idx info + 1)%Z.

(** [_get_ir_from_frontend] (lines 35-38).  In the three getters,
    [if self.<attr>:] is a test for [None]: the attribute holds [None]
    or an [ir.Module], a live [ModuleRef] or a live [ExecutionEngine],
    and each of these objects is true. *)
Definition _get_ir_from_frontend (self : nat) : M (IRModule W) :=
  let* cached := getattr obj_IR_module_frontend cls_IR_module_frontend self in
  match cached with
  | Some ir => ret ir
  | None =>
      let* file := getfield model_file self in
      let* ir := call_out (EvFrontend self) (ir_from_model_file W file) in
      let* _ := setattr (set_IR_module_frontend ir) self in
      ret ir
  end.

(** [_get_execution_engine] (lines 40-59). *)
Definition _get_execution_engine (self : nat) : M nat :=
  let* cached := getattr obj_execution_engine cls_execution_engine self in
  match cached with
  | Some eng => ret eng
  | None =>
      let* _ := call_out (EvInitialize self) (Ok tt) in
      let* target_machine := call_out (EvCreateTargetMachine self) (create_target_machine W) in
      let* backing_mod := call_out (EvParseAssembly self BackingModule) (parse_assembly W "") in
      let* e := call_out (EvCreateEngine self) (create_mcjit_compiler W backing_mod target_machine) in
      let* eng := new_engine e in
      let* _ := setattr (set_execution_engine eng) self in
      ret eng
  end.

(** [_get_optimized_module] (lines 61-79): parse the text of the frontend
    module, verify it, run the module passes on it, cache it. *)
Definition _get_optimized_module (self : nat) : M (ModuleRef W) :=
  let* cached := getattr obj_IR_module cls_IR_module self in
  match cached with
  | Some module => ret module
  | None =>
      let* ir := _get_ir_from_frontend self in
      let* module := call_out (EvParseAssembly self FrontendIR) (parse_assembly W (ir_str W ir)) in
      let* _ := call_out (EvVerify self) (module_verify W module) in
      let* module := call_out (EvRunPasses self) (Ok (run_passes W module)) in
      let* _ := setattr (set_IR_module module) self in
      ret module
  end.

(** [save_model_ir] (lines 81-91). *)
Definition save_model_ir (self : nat) (filepath : string) : M unit :=
  let* module := _get_optimized_module self in
  write_text filepath (module_str W module).

(** [load_model_ir] (lines 93-103). *)
Definition load_model_ir (self : nat) (filepath : string) : M unit :=
  let* ir := read_text filepath in
  let* module := call_out (EvParseAssembly self LoadedIR) (parse_assembly W ir) in
  setattr (set_IR_module module) self.

(** [compile] (lines 105-125). *)
Definition compile (self : nat) : M unit :=
  let* entry := getattr obj_c_entry_func cls_c_entry_func self in
  if truthy_cfunc entry then ret tt
  else
    let* exec_engine := _get_execution_engine self in
    let* module := _get_optimized_module self in
    let* _ := engine_call (EvAddModule self) exec_engine (fun e => add_module W e module) in
    let* _ := engine_call (EvFinalizeObject self) exec_engine (finalize_object W) in
    let* _ := engine_call (EvRunStaticConstructors self) exec_engine (run_static_constructors W) in
    let* addr := engine_query (EvGetFunctionAddress self "forest_root") exec_engine
                   (fun e => get_function_address W e "forest_root") in
    let* f := new_cfunc addr in
    setattr (set_c_entry_func f) self.

(** [_to_1d_ndarray] (lines 138-157); it does not read [self].  A list
    is converted with [np.array], anything that is then not an array is
    refused, and so is an array that is not 2-dimensional; both branches
    on [data.dtype] return the elements of [data.reshape(data.size)] as
    doubles.  The conversion of line 156 is outside the [try] block: an
    element that does not convert raises [OverflowError] as it is. *)
Definition _to_1d_ndarray (data : pyobj F) : outcome (list F * nat) :=
  let converted :=
    match data with
    | PyList xs =>
        match np_array (f64_of_int W) xs with
        | Some a => Ok (PyNdarray a)
        | None => Raise (ValueError CannotConvertList)
        end
    | _ => Ok data
    end in
  match converted with
  | Ok (PyNdarray a) =>
      match shape a with
      | [n_preds; _] =>
          match as_float64 (f64_of_int W) (elems a) with
          | Some buf => Ok (buf, n_preds)
          | None => Raise OverflowError
          end
      | sh => Raise (ValueError (NotTwoDimensional (length sh)))
      end
  | Ok other => Raise (ValueError (ExpectingListOrNdarray (type_of other)))
  | Raise e => Raise e
  | Fault => Fault
  end.

(** The count as the [c_int] parameter of the binding receives it. *)
Definition c_int (n : Z) : Z := ((n + 2 ^ 31) mod 2 ^ 32 - 2 ^ 31)%Z.

(** [self._c_entry_func(ptr_data, n_preds, ptr_preds)]: the call is
    recorded with the count [predict] passes; the native routine receives
    it as a [c_int] and overwrites the cells of [preds]; a null pointer
    cannot be called. *)
Definition call_entry (self : nat) (f : CFuncPtr) (input : list F)
    (n_preds : nat) (preds : list F) : M (list F) :=
  let ev := EvNativeCall self (cf_addr f) (Z.of_nat n_preds) in
  if (cf_addr f =? 0)%Z then call_out ev Fault
  else
    call_out ev
      (Ok (imap (native_cell W (cf_addr f) input (c_int (Z.of_nat n_preds))) preds)).

(** Modelled from the spec: [get_objective_func] (module
    [lleaves.tree_compiler.objective_funcs]) returns the objective
    transform, a pure elementwise function ("implemented as an np.ufunc"
    in the words of [__init__]); applied to an array it maps over it. *)
Definition apply_objective (transf : F -> F) (preds : list F) : list F :=
  transf <$> preds.

(** [predict] (lines 127-136): [compile()] first, then the validation,
    the zeroed output buffer, the native call and the objective
    transform. *)
Definition predict (self : nat) (data : pyobj F) : M (list F) :=
  let* _ := compile self in
  let* flat := lift (_to_1d_ndarray data) in
  let preds := replicate flat.2 (f64_zero W) in
  let* entry := getattr obj_c_entry_func cls_c_entry_func self in
  match entry with
  | Some f =>
      let* preds := call_entry self f flat.1 flat.2 preds in
      let* transf := getfield objective_transf self in
      ret (apply_objective transf preds)
  | None => raise (TypeError "NoneType object is not callable")
  end.

(** ** Sequences of calls *)

(** [n] calls of the same method in a row, as in
    [m.compile(); m.compile(); ...]: an exception leaves the sequence. *)
Fixpoint repeat_call (n : nat) (m : M unit) : M unit :=
  match n with
  | O => ret tt
  | S k => let* _ := m in repeat_call k m
  end.

(** A call of a public or private method of one instance. *)
Inductive method_call : Type :=
| CallNumFeature
| CallGetIRFromFrontend
| CallGetExecutionEngine
| CallGetOptimizedModule
| CallSaveModelIR (filepath : string)
| CallLoadModelIR (filepath : string)
| CallCompile
| CallPredict (data : pyobj F).

(** The process after the call, whether it returned or raised (the caller
    may catch the exception and go on). *)
Definition run_call (self : nat) (c : method_call) (p : Process) : Process :=
  match c with
  | CallNumFeature => (num_feature self p).2
  | CallGetIRFromFrontend => (_get_ir_from_frontend self p).2
  | CallGetExecutionEngine => (_get_execution_engine self p).2
  | CallGetOptimizedModule => (_get_optimized_module self p).2
  | CallSaveModelIR filepath => (save_model_ir self filepath p).2
  | CallLoadModelIR filepath => (load_model_ir self filepath p).2
  | CallCompile => (compile self p).2
  | CallPredict data => (predict self data p).2
  end.

Definition run_calls (self : nat) (cs : list method_call) (p : Process) : Process :=
  foldl (fun q c => run_call self c q) p cs.

(** ** Observations *)

(** The four cached attributes as [self.<attr>] reads them. *)
Definition frontend_ir (self : nat) (p : Process) : option (IRModule W) :=
  o ← models p !! self;
  lookup_attr (obj_IR_module_frontend o) (cls_IR_module_frontend (model_class p)).

Definition optimized_ir (self : nat) (p : Process) : option (ModuleRef W) :=
  o ← models p !! self;
  lookup_attr (obj_IR_module o) (cls_IR_module (model_class p)).

Definition engine (self : nat) (p : Process) : option nat :=
  o ← models p !! self;
  lookup_attr (obj_execution_engine o) (cls_execution_engine (model_class p)).

Definition c_entry_func (self : nat) (p : Process) : option CFuncPtr :=
  o ← models p !! self;
  lookup_attr (obj_c_entry_func o) (cls_c_entry_func (model_class p)).

(** The entry point in the sense of the test [if self._c_entry_func:]:
    the cached binding when it is not null. *)
Definition entry_point (self : nat) (p : Process) : option CFuncPtr :=
  match c_entry_func self p with
  | Some f => if (cf_addr f =? 0)%Z then None else Some f
  | None => None
  end.

(** The array that [_to_1d_ndarray] goes on with: the conversion of a
    list, or the array itself; anything else is refused. *)
Definition accepted_array (data : pyobj F) : option (ndarray F) :=
  match data with
  | PyList xs => np_array (f64_of_int W) xs
  | PyNdarray a => Some a
  | _ => None
  end.


(** A row of a batch given as a Python list of floats. *)
Definition py_row (r : list F) : pyobj F := PyList (PyFloat <$> r).

End Model.

Arguments model_class {W} p.
Arguments models {W} p.
Arguments engines {W} p.
Arguments files {W} p.
Arguments trace {W} p.
Arguments next_id {W} p.
Arguments model_file {W} m.
Arguments _general_info {W} m.
Arguments objective_transf {W} m.
Arguments obj_execution_engine {W} m.
Arguments obj_IR_module_frontend {W} m.
Arguments obj_IR_module {W} m.
Arguments obj_c_entry_func {W} m.
Arguments cls_execution_engine {W} m.
Arguments cls_IR_module_frontend {W} m.
Arguments cls_IR_module {W} m.
Arguments cls_c_entry_func {W} m.
Arguments frontend_ir {W} self p.
Arguments optimized_ir {W} self p.
Arguments engine {W} self p.
Arguments c_entry_func {W} self p.
Arguments entry_point {W} self p.
Arguments py_row {W} r.
Arguments set_trace {W} t p.
Arguments set_files {W} fs p.
Arguments set_models {W} ms p.
Arguments set_engines {W} es p.
Arguments set_next_id {W} n p.
Arguments ret {W A} a.
Arguments raise {W A} e.
Arguments bind {W A B} m k.
Arguments lift {W A} r.
Arguments call_out {W A} ev r.
Arguments getfield {W A} field self.
Arguments getattr {W A} from_obj from_class self.
Arguments setattr {W} upd self.
Arguments lookup_attr {A} in_obj in_class.

Notation "'let*' x ':=' m 'in' k" := (bind m (fun x => k))
  (at level 10, x name, m at level 100, k at level 200,
   format "'[v' 'let*'  x  ':='  m  'in' '/' k ']'").

(** ** A small world to run the methods in

    Doubles are stood for by integers.  The text of a module is the name
    of the one function it defines (the empty text defines none), and a
    text starting with [%] does not parse.  As in llvmlite, an engine
    refuses a module it already holds, and reports the null address for a
    symbol that none of its modules defines.  Models have three features;
    the native routine sums the features of a row. *)
Module Host.

Definition model_info (file : string) : outcome general_info :=
  if decide (file = "") then Raise (LibraryError "cannot open model file")
  else Ok {| max_feature_idx := 2; objective := "regression" |}.

Definition objective_func (name : string) : outcome (Z -> Z) :=
  if decide (name = "regression") then Ok (fun x => x)
  else if decide (name = "binary") then Ok (fun x => Z.sgn x)
  else Raise (LibraryError "objective not implemented").

Definition parse (text : string) : outcome string :=
  if String.prefix "%" text then Raise (LibraryError "LLVM IR parsing error")
  else Ok text.

Definition add (e : list string) (module : string) : outcome (list string) :=
  if decide (module ∈ e) then Raise (LibraryError "module already added to this engine")
  else Ok (module :: e).

Definition address_of (e : list string) (name : string) : Z :=
  match list_find (fun module => module = name) e with
  | Some (i, _) => 4096 + 64 * Z.of_nat i
  | None => 0
  end.

Definition sum_row (addr : Z) (input : list Z) (count : Z) (i : nat) (old : Z) : Z :=
  foldr Z.add 0%Z (take 3 (drop (3 * i) input)).

(** Doubles are stood for by integers; an integer of 2^1024 or more in
    absolute value is out of range. *)
Definition float_of (z : Z) : option Z :=
  if (Z.log2 (Z.abs z) <? 1024)%Z then Some z else None.

(** Nothing can be written below [/readonly/]. *)
Definition writable (path : string) : bool :=
  negb (String.prefix "/readonly/" path).

Definition world : World :=
  {| float64 := Z;
     f64_zero := 0%Z;
     f64_of_int := float_of;
     path_writable := writable;
     parse_model_file := model_info;
     get_objective_func := objective_func;
     IRModule := string;
     ir_from_model_file := fun _ => Ok "forest_root";
     ir_str := fun ir => ir;
     ModuleRef := string;
     parse_assembly := parse;
     module_verify := fun _ => Ok tt;
     run_passes := fun module => module;
     module_str := fun module => module;
     TargetMachine := unit;
     create_target_machine := Ok tt;
     ExecutionEngine := list string;
     create_mcjit_compiler := fun _ _ => Ok [];
     add_module := add;
     finalize_object := fun e => Ok e;
     run_static_constructors := fun e => Ok e;
     get_function_address := address_of;
     native_cell := sum_row |}.

(** A process with one fresh instance, [Model("model.txt")], and two
    files: a persisted module without [forest_root] and a corrupted one. *)
Definition fresh : Process world :=
  set_files
    (<["other.ll" := "helper"]> (<["corrupt.ll" := "%garbage"]> ∅))
    (Model_init world "model.txt" (initial_process world)).2.

(** The same instance after [compile()]. *)
Definition compiled : Process world := (compile world 0 fresh).2.

(** The same instance after [load_model_ir("other.ll")]. *)
Definition loaded : Process world := (load_model_ir world 0 "other.ll" fresh).2.

(** A second instance, [Model("second.txt")], next to the first. *)
Definition two_models : Process world := (Model_init world "second.txt" fresh).2.


Definition row (xs : list Z) : pyobj Z := @py_row world xs.

(** [[[1.0, 2.0, 3.0], [4.0, 5.0, 6.0]]] *)
Definition batch : pyobj Z := PyList [row [1; 2; 3]; row [4; 5; 6]]%Z.

(** [[[1.0, 2.0]]]: one row, one feature short. *)
Definition short_batch : pyobj Z := PyList [row [1; 2]]%Z.


(** [np.array([1.0, 2.0, 3.0])]: a 1-dimensional array. *)
Definition one_dim : pyobj Z := PyNdarray (mk_ndarray [3] (BufFloat64 [1; 2; 3]%Z)).

(** [np.zeros((0, 3))] *)
Definition no_rows : pyobj Z := PyNdarray (mk_ndarray [0; 3] (BufFloat64 [])).

(** A load, a compile, a prediction and a private getter on the compiled
    instance. *)
Definition later_calls : list (method_call world) :=
  [CallLoadModelIR world "other.ll"; CallCompile world; CallPredict world batch;
   CallGetOptimizedModule world].

(** The public methods after a load on the fresh instance. *)
Definition calls_after_load : list (method_call world) :=
  [CallCompile world; CallPredict world batch; CallSaveModelIR world "copy.ll"].

(** The process after [save_model_ir("model.ll")] on the fresh instance. *)
Definition saved : Process world := (save_model_ir world 0 "model.ll" fresh).2.

(** The process after [predict(batch)] on the fresh instance. *)
Definition predicted : Process world := (predict world 0 batch fresh).2.



(** The loaded instance once its engine is built. *)
Definition engine_built : Process world := (_get_execution_engine world 0 loaded).2.

(** A world like [world] in which no module passes verification. *)
Definition strict_world : World :=
  {| float64 := Z;
     f64_zero := 0%Z;
     f64_of_int := float_of;
     path_writable := writable;
     parse_model_file := model_info;
     get_objective_func := objective_func;
     IRModule := string;
     ir_from_model_file := fun _ => Ok "forest_root";
     ir_str := fun ir => ir;
     ModuleRef := string;
     parse_assembly := parse;
     module_verify := fun _ => Raise (LibraryError "verification failed");
     run_passes := fun module => module;
     module_str := fun module => module;
     TargetMachine := unit;
     create_target_machine := Ok tt;
     ExecutionEngine := list string;
     create_mcjit_compiler := fun _ _ => Ok [];
     add_module := add;
     finalize_object := fun e => Ok e;
     run_static_constructors := fun e => Ok e;
     get_function_address := address_of;
     native_cell := sum_row |}.

(** A fresh instance in that world. *)
Definition strict_fresh : Process strict_world :=
  (Model_init strict_world "model.txt" (initial_process strict_world)).2.

(** That instance as [__init__] leaves it. *)
Definition strict_obj : ModelObj strict_world :=
  mk_ModelObj strict_world "model.txt"
    {| max_feature_idx := 2; objective := "regression" |}
    (fun x => x) None None None None.

(** The instance with the null binding that [compile()] caches for the
    loaded module without [forest_root]. *)
Definition null_bound : Process world := (compile world 0 loaded).2.

End Host.

(** ** Relations between the process before and after a step *)

Section Relations.
Context {W : World}.

(** [m] takes every process to a process related to it by [R], whatever
    the outcome. *)
Definition preserves {A} (R : relation (Process W)) (m : M W A) : Prop :=
  forall p, R p (m p).2.

(** The [__dict__] of the instance [j] and the class object are as before. *)
Definition frame (j : nat) : relation (Process W) :=
  fun p q => models q !! j = models p !! j /\ model_class q = model_class p.

(** An observation that reads the instances and the class only. *)
Class ModelOnly {X} (obs : Process W -> X) : Prop := {
  obs_trace : forall t p, obs (set_trace t p) = obs p;
  obs_engines : forall es p, obs (set_engines es p) = obs p;
  obs_files : forall fs p, obs (set_files fs p) = obs p;
  obs_next_id : forall n p, obs (set_next_id n p) = obs p
}.

(** The observation [obs] reads as before. *)
Definition keeps {X} (obs : Process W -> X) : relation (Process W) :=
  fun p q => obs q = obs p.

(** No call counted by [P] is made. *)
Definition quiet (P : event -> Prop) `{!forall e, Decision (P e)} : relation (Process W) :=
  fun p q => tally P (trace q) = tally P (trace p).

(** At most [n] calls counted by [P] are made. *)
Definition grows_by (P : event -> Prop) `{!forall e, Decision (P e)} (n : nat) :
    relation (Process W) :=
  fun p q => tally P (trace q) <= tally P (trace p) + n.

(** Once the optimized module is cached, it stays cached and the event
    [ev] does not occur again. *)
Definition steady (self : nat) (ev : event) : relation (Process W) :=
  fun p q =>
    is_Some (optimized_ir self p) ->
    is_Some (optimized_ir self q) /\ quiet (fun e => e = ev) p q.

(** What follows the optimized module in [compile]: linking, code
    generation, symbol resolution and binding. *)
Definition compile_link (self exec_engine : nat) (module : ModuleRef W) : M W unit :=
  let* _ := engine_call W (EvAddModule self) exec_engine (fun e => add_module W e module) in
  let* _ := engine_call W (EvFinalizeObject self) exec_engine (finalize_object W) in
  let* _ := engine_call W (EvRunStaticConstructors self) exec_engine (run_static_constructors W) in
  let* addr := engine_query W (EvGetFunctionAddress self "forest_root") exec_engine
                 (fun e => get_function_address W e "forest_root") in
  let* f := new_cfunc W addr in
  setattr (set_c_entry_func W f) self.

(** Once [obs] reads [Some v] it goes on reading [Some v], and from then
    on no call counted by [P] is made. *)
Definition once {X} (obs : Process W -> option X)
    (P : event -> Prop) `{!forall e, Decision (P e)} : relation (Process W) :=
  fun p q => forall v, obs p = Some v -> obs q = Some v /\ quiet P p q.

(** What [__init__] stores in the instance and no method assigns. *)
Definition descriptor (self : nat) (p : Process W) :
    option (string * general_info * (float64 W -> float64 W)) :=
  (fun o => (model_file o, _general_info o, objective_transf o)) <$> models p !! self.

(** The frontend returns a module for the model file of the instance. *)
Definition frontend_returns (self : nat) (p : Process W) : Prop :=
  exists o ir, models p !! self = Some o /\ ir_from_model_file W (model_file o) = Ok ir.

(** The frontend module is memoized: once cached it stays and the
    frontend is not called again; and where the frontend returns, a step
    from an empty cache either leaves it empty without calling the
    frontend, or fills it with one call at most. *)
Definition memoized (self : nat) : relation (Process W) :=
  fun p q =>
    once (frontend_ir self) (fun e => e = EvFrontend self) p q /\
    (frontend_ir self p = None -> frontend_returns self p ->
       (frontend_ir self q = None /\ descriptor self q = descriptor self p /\
        quiet (fun e => e = EvFrontend self) p q) \/
       (is_Some (frontend_ir self q) /\ grows_by (fun e => e = EvFrontend self) 1 p q)).

(** Every identity in use is below the next free one. *)
Definition heap_wf (p : Process W) : Prop :=
  forall i, next_id p <= i -> models p !! i = None /\ engines p !! i = None.

(** A step that keeps the identities in use below the next free one. *)
Definition wf_step : relation (Process W) := fun p q => heap_wf p -> heap_wf q.

(** The call returned normally. *)
Definition returned {A} (r : outcome A) : Prop :=
  match r with
  | Ok _ => True
  | _ => False
  end.

(** When [m] does not return, the process it leaves is related by [R] to
    the one it started from. *)
Definition on_failure {A} (R : relation (Process W)) (m : M W A) : Prop :=
  forall p, ~ returned (m p).1 -> R p (m p).2.

End Relations.

Arguments compile_link : clear implicits.

(** The calls of the frontend adapter and of the optimizer (parse,
    verify, optimize) made for the instance [self]. *)
Definition upstream (self : nat) (ev : event) : Prop :=
  ev = EvFrontend self \/ ev = EvParseAssembly self FrontendIR \/
  ev = EvVerify self \/ ev = EvRunPasses self.

(** The calls that set the engine up, and the calls of the link step. *)
Definition engine_setup (self : nat) (ev : event) : Prop :=
  ev = EvInitialize self \/ ev = EvCreateTargetMachine self \/
  ev = EvParseAssembly self BackingModule \/ ev = EvCreateEngine self.

Definition link_stage (self : nat) (ev : event) : Prop :=
  ev = EvAddModule self \/ ev = EvFinalizeObject self \/
  ev = EvRunStaticConstructors self \/ ev = EvGetFunctionAddress self "forest_root".

Global Instance upstream_dec self ev : Decision (upstream self ev).
Proof. unfold upstream. apply _. Defined.
Global Instance engine_setup_dec self ev : Decision (engine_setup self ev).
Proof. unfold engine_setup. apply _. Defined.
Global Instance link_stage_dec self ev : Decision (link_stage self ev).
Proof. unfold link_stage. apply _. Defined.

(** The methods a user of the class calls. *)
Definition public {W} (c : method_call W) : Prop :=
  match c with
  | CallGetIRFromFrontend _ | CallGetExecutionEngine _ | CallGetOptimizedModule _ => False
  | _ => True
  end.

(** * Properties *)

Section Facts.
Context (W : World).
Implicit Types (p q : Process W) (self : nat) (ev : event) (t : list event).

(** ** The monad *)

Lemma bind_Ok {A B} (m : M W A) (k : A -> M W B) p a q :
  m p = (Ok a, q) -> bind m k p = k a q.
Proof. intros E. unfold bind. by rewrite E. Qed.

Lemma bind_Raise {A B} (m : M W A) (k : A -> M W B) p e q :
  m p = (Raise e, q) -> bind m k p = (Raise e, q).
Proof. intros E. unfold bind. by rewrite E. Qed.

Lemma bind_Fault {A B} (m : M W A) (k : A -> M W B) p q :
  m p = (Fault, q) -> bind m k p = (Fault, q).
Proof. intros E. unfold bind. by rewrite E. Qed.

(** The state a sequence ends in is the state its first part ends in, or
    one the second part reaches from there. *)
Lemma bind_state {A B} (m : M W A) (k : A -> M W B) p :
  (bind m k p).2 = (m p).2 \/ exists a, (m p).1 = Ok a /\ (bind m k p).2 = (k a (m p).2).2.
Proof.
  unfold bind. destruct (m p) as [[a | e |] q]; simpl; eauto.
Qed.

(** ** Relations every step of a method respects *)

Lemma preserves_bind {A B} (R : relation (Process W)) `{!PreOrder R}
    (m : M W A) (k : A -> M W B) :
  preserves R m -> (forall a, preserves R (k a)) -> preserves R (bind m k).
Proof.
  intros Hm Hk p.
  destruct (bind_state m k p) as [-> | (a & _ & ->)]; [apply Hm |].
  etrans; [apply Hm | apply Hk].
Qed.

Lemma preserves_pure {A} (R : relation (Process W)) `{!Reflexive R} (m : M W A) :
  (forall p, (m p).2 = p) -> preserves R m.
Proof. intros E p. rewrite E. reflexivity. Qed.

Lemma preserves_repeat_call (R : relation (Process W)) `{!PreOrder R} (m : M W unit) n :
  preserves R m -> preserves R (repeat_call W n m).
Proof.
  intros Hm. induction n as [| n IH]; simpl.
  - intros p. reflexivity.
  - apply preserves_bind; auto.
Qed.

(** The steps that read the state without changing it. *)
Lemma getattr_state {A} (fo : ModelObj W -> option A) fc self p :
  (getattr fo fc self p).2 = p.
Proof. unfold getattr. by case_match. Qed.

Lemma getfield_state {A} (f : ModelObj W -> A) self p : (getfield f self p).2 = p.
Proof. unfold getfield. by case_match. Qed.

(** Splitting a method body into its steps; [leaf] is tried on every
    step before the step is split further. *)
Ltac split_body_with leaf :=
  repeat first
    [ solve [ leaf ]
    | apply preserves_bind; [ typeclasses eauto | | intros ? ]
    | match goal with
      | |- preserves _ (match ?x with _ => _ end) => destruct x
      end
    | apply preserves_pure; [ typeclasses eauto | first [ done | apply getattr_state | apply getfield_state ] ] ].

Ltac split_body := split_body_with fail.

(** ** The instance of another object and the class are out of reach *)

Global Instance frame_preorder j : PreOrder (frame (W:=W) j).
Proof.
  split.
  - by intros p.
  - intros p q r [H1 H2] [H3 H4]. split; congruence.
Qed.

Lemma setattr_frame upd i j : i <> j -> preserves (frame j) (setattr (W:=W) upd i).
Proof.
  intros Hij p. unfold setattr. case_match; [| done].
  split; simpl; [by rewrite lookup_insert_ne | done].
Qed.

Lemma call_out_frame {A} j ev (r : outcome A) : preserves (frame j) (call_out (W:=W) ev r).
Proof. by intros p. Qed.

Lemma engine_call_frame j ev eng method : preserves (frame j) (engine_call W ev eng method).
Proof. intros p. unfold engine_call. by repeat case_match. Qed.

Lemma engine_query_frame {A} j ev eng (method : _ -> A) :
  preserves (frame j) (engine_query W ev eng method).
Proof. intros p. unfold engine_query. by repeat case_match. Qed.

Lemma new_engine_frame j e : preserves (frame j) (new_engine W e).
Proof. by intros p. Qed.

Lemma new_cfunc_frame j addr : preserves (frame j) (new_cfunc W addr).
Proof. by intros p. Qed.

Lemma read_text_frame j path : preserves (frame j) (read_text W path).
Proof. intros p. unfold read_text. by case_match. Qed.

Lemma write_text_frame j path text : preserves (frame j) (write_text W path text).
Proof. intros p. unfold write_text. by case_match. Qed.

Create HintDb frame_db discriminated.
#[local] Hint Resolve setattr_frame call_out_frame engine_call_frame engine_query_frame
  new_engine_frame new_cfunc_frame read_text_frame write_text_frame : frame_db.

Lemma _get_ir_from_frontend_frame i j :
  i <> j -> preserves (frame j) (_get_ir_from_frontend W i).
Proof. intros Hij. unfold _get_ir_from_frontend. split_body; auto with frame_db. Qed.

Lemma _get_execution_engine_frame i j :
  i <> j -> preserves (frame j) (_get_execution_engine W i).
Proof. intros Hij. unfold _get_execution_engine. split_body; auto with frame_db. Qed.

Lemma _get_optimized_module_frame i j :
  i <> j -> preserves (frame j) (_get_optimized_module W i).
Proof.
  intros Hij. unfold _get_optimized_module.
  split_body; auto using _get_ir_from_frontend_frame with frame_db.
Qed.

Lemma compile_frame i j : i <> j -> preserves (frame j) (compile W i).
Proof.
  intros Hij. unfold compile.
  split_body;
    auto using _get_execution_engine_frame, _get_optimized_module_frame with frame_db.
Qed.

Lemma call_entry_frame i j f input n preds :
  preserves (frame j) (call_entry W i f input n preds).
Proof. unfold call_entry. case_match; auto with frame_db. Qed.

Lemma predict_frame i j input : i <> j -> preserves (frame j) (predict W i input).
Proof.
  intros Hij. unfold predict.
  split_body; auto using compile_frame, call_entry_frame with frame_db.
Qed.

Lemma run_call_frame i j c p : i <> j -> frame j p (run_call W i c p).
Proof.
  intros Hij. destruct c; simpl.
  - unfold num_feature. split_body.
  - by apply _get_ir_from_frontend_frame.
  - by apply _get_execution_engine_frame.
  - by apply _get_optimized_module_frame.
  - unfold save_model_ir.
    split_body; auto using _get_optimized_module_frame with frame_db.
  - unfold load_model_ir. split_body; auto with frame_db.
  - by apply compile_frame.
  - by apply predict_frame.
Qed.

Lemma run_calls_frame i j cs p : i <> j -> frame j p (run_calls W i cs p).
Proof.
  intros Hij. revert p. induction cs as [| c cs IH]; intros p; simpl.
  - reflexivity.
  - etrans; [by apply (run_call_frame i j c) | apply IH].
Qed.


(** ** Observations a step leaves alone *)

Global Instance frontend_ir_model_only self : ModelOnly (W:=W) (frontend_ir self).
Proof. by split. Qed.
Global Instance optimized_ir_model_only self : ModelOnly (W:=W) (optimized_ir self).
Proof. by split. Qed.
Global Instance engine_model_only self : ModelOnly (W:=W) (engine self).
Proof. by split. Qed.
Global Instance c_entry_func_model_only self : ModelOnly (W:=W) (c_entry_func self).
Proof. by split. Qed.
Global Instance entry_point_model_only self : ModelOnly (W:=W) (entry_point self).
Proof. by split. Qed.
Global Instance models_model_only : ModelOnly (@models W).
Proof. by split. Qed.

Section Keeps.
Context {X : Type} (obs : Process W -> X).

Global Instance keeps_preorder : PreOrder (keeps obs).
Proof.
  split.
  - by intros p.
  - intros p q r H1 H2. unfold keeps in *. congruence.
Qed.

Context `{!ModelOnly obs}.

Lemma call_out_keeps {A} ev (r : outcome A) : preserves (keeps obs) (call_out (W:=W) ev r).
Proof. intros p. apply obs_trace. Qed.

Lemma engine_call_keeps ev eng method : preserves (keeps obs) (engine_call W ev eng method).
Proof.
  intros p. unfold keeps, engine_call.
  repeat case_match; simpl; by rewrite ?obs_engines, ?obs_trace.
Qed.

Lemma engine_query_keeps {A} ev eng (method : _ -> A) :
  preserves (keeps obs) (engine_query W ev eng method).
Proof.
  intros p. unfold keeps, engine_query. case_match; simpl; by rewrite ?obs_trace.
Qed.

Lemma new_engine_keeps e : preserves (keeps obs) (new_engine W e).
Proof. intros p. unfold keeps, new_engine. simpl. by rewrite obs_next_id, obs_engines. Qed.

Lemma new_cfunc_keeps addr : preserves (keeps obs) (new_cfunc W addr).
Proof. intros p. apply obs_next_id. Qed.

Lemma read_text_keeps path : preserves (keeps obs) (read_text W path).
Proof. intros p. unfold keeps, read_text. case_match; apply obs_trace. Qed.

Lemma write_text_keeps path text : preserves (keeps obs) (write_text W path text).
Proof.
  intros p. unfold keeps, write_text. case_match; simpl; by rewrite ?obs_files, obs_trace.
Qed.

Lemma setattr_keeps upd self :
  (forall p o, models p !! self = Some o ->
     obs (set_models (<[self := upd o]> (models p)) p) = obs p) ->
  preserves (keeps obs) (setattr (W:=W) upd self).
Proof. intros H p. unfold keeps, setattr. case_match; simpl; auto. Qed.

End Keeps.

(** Which attribute an assignment leaves alone. *)
Lemma lookup_after_setattr (upd : ModelObj W -> ModelObj W) self p o :
  models p !! self = Some o ->
  models (set_models (<[self := upd o]> (models p)) p) !! self = Some (upd o).
Proof. intros _. simpl. apply lookup_insert_eq. Qed.

Lemma set_execution_engine_keeps_frontend_ir self eng :
  preserves (keeps (frontend_ir self)) (setattr (W:=W) (set_execution_engine W eng) self).
Proof.
  apply setattr_keeps. intros p o Ho. unfold frontend_ir.
  by rewrite lookup_after_setattr, Ho.
Qed.

Lemma set_execution_engine_keeps_optimized_ir self eng :
  preserves (keeps (optimized_ir self)) (setattr (W:=W) (set_execution_engine W eng) self).
Proof.
  apply setattr_keeps. intros p o Ho. unfold optimized_ir.
  by rewrite lookup_after_setattr, Ho.
Qed.

Lemma set_execution_engine_keeps_c_entry_func self eng :
  preserves (keeps (c_entry_func self)) (setattr (W:=W) (set_execution_engine W eng) self).
Proof.
  apply setattr_keeps. intros p o Ho. unfold c_entry_func.
  by rewrite lookup_after_setattr, Ho.
Qed.

Lemma set_c_entry_func_keeps_optimized_ir self f :
  preserves (keeps (optimized_ir self)) (setattr (W:=W) (set_c_entry_func W f) self).
Proof.
  apply setattr_keeps. intros p o Ho. unfold optimized_ir.
  by rewrite lookup_after_setattr, Ho.
Qed.

Lemma set_c_entry_func_keeps_engine self f :
  preserves (keeps (engine self)) (setattr (W:=W) (set_c_entry_func W f) self).
Proof.
  apply setattr_keeps. intros p o Ho. unfold engine.
  by rewrite lookup_after_setattr, Ho.
Qed.

Lemma set_IR_module_keeps_engine self m :
  preserves (keeps (engine self)) (setattr (W:=W) (set_IR_module W m) self).
Proof.
  apply setattr_keeps. intros p o Ho. unfold engine.
  by rewrite lookup_after_setattr, Ho.
Qed.

Lemma set_IR_module_keeps_c_entry_func self m :
  preserves (keeps (c_entry_func self)) (setattr (W:=W) (set_IR_module W m) self).
Proof.
  apply setattr_keeps. intros p o Ho. unfold c_entry_func.
  by rewrite lookup_after_setattr, Ho.
Qed.

Lemma set_IR_module_frontend_keeps_engine self ir :
  preserves (keeps (engine self)) (setattr (W:=W) (set_IR_module_frontend W ir) self).
Proof.
  apply setattr_keeps. intros p o Ho. unfold engine.
  by rewrite lookup_after_setattr, Ho.
Qed.

Lemma set_IR_module_frontend_keeps_c_entry_func self ir :
  preserves (keeps (c_entry_func self)) (setattr (W:=W) (set_IR_module_frontend W ir) self).
Proof.
  apply setattr_keeps. intros p o Ho. unfold c_entry_func.
  by rewrite lookup_after_setattr, Ho.
Qed.

Create HintDb keeps_db discriminated.
#[local] Hint Resolve call_out_keeps engine_call_keeps engine_query_keeps new_engine_keeps
  new_cfunc_keeps read_text_keeps write_text_keeps
  set_execution_engine_keeps_frontend_ir set_execution_engine_keeps_optimized_ir
  set_execution_engine_keeps_c_entry_func set_c_entry_func_keeps_optimized_ir
  set_c_entry_func_keeps_engine set_IR_module_keeps_engine set_IR_module_keeps_c_entry_func
  set_IR_module_frontend_keeps_engine set_IR_module_frontend_keeps_c_entry_func : keeps_db.

(** ** Counting external calls *)

Section Tally.
Context (P : event -> Prop) `{!forall e, Decision (P e)}.

Lemma tally_cons e t :
  tally P (e :: t) = ((if decide (P e) then 1 else 0) + tally P t)%nat.
Proof. unfold tally. rewrite filter_cons. by case_decide. Qed.

Lemma tally_cons_other e t : ~ P e -> tally P (e :: t) = tally P t.
Proof. intros Hev. rewrite tally_cons. by rewrite decide_False. Qed.

Global Instance quiet_preorder : PreOrder (quiet (W:=W) P).
Proof.
  split.
  - by intros p.
  - intros p q r H1 H2. unfold quiet in *. congruence.
Qed.

Lemma quiet_grows p q n : quiet P p q -> grows_by P n p q.
Proof. unfold quiet, grows_by. lia. Qed.

Lemma grows_bind {A B} a b (m : M W A) (k : A -> M W B) :
  preserves (grows_by P a) m -> (forall x, preserves (grows_by P b) (k x)) ->
  preserves (grows_by P (a + b)) (bind m k).
Proof.
  intros Hm Hk p. specialize (Hm p).
  destruct (bind_state m k p) as [-> | (x & _ & ->)].
  - unfold grows_by in *. lia.
  - specialize (Hk x (m p).2). unfold grows_by in *. lia.
Qed.

Lemma call_out_quiet {A} ev (r : outcome A) :
  ~ P ev -> preserves (quiet P) (call_out (W:=W) ev r).
Proof. intros Hev p. unfold quiet. simpl. by rewrite tally_cons_other. Qed.

Lemma engine_call_quiet ev eng method :
  ~ P ev -> preserves (quiet P) (engine_call W ev eng method).
Proof.
  intros Hev p. unfold quiet, engine_call.
  repeat case_match; simpl; by rewrite ?tally_cons_other.
Qed.

Lemma engine_query_quiet {A} ev eng (method : _ -> A) :
  ~ P ev -> preserves (quiet P) (engine_query W ev eng method).
Proof.
  intros Hev p. unfold quiet, engine_query.
  case_match; simpl; by rewrite ?tally_cons_other.
Qed.

Lemma setattr_quiet upd self : preserves (quiet P) (setattr (W:=W) upd self).
Proof. intros p. unfold quiet, setattr. by case_match. Qed.

Lemma new_engine_quiet e : preserves (quiet P) (new_engine W e).
Proof. by intros p. Qed.

Lemma new_cfunc_quiet addr : preserves (quiet P) (new_cfunc W addr).
Proof. by intros p. Qed.

Lemma _get_execution_engine_quiet self :
  ~ P (EvInitialize self) -> ~ P (EvCreateTargetMachine self) ->
  ~ P (EvParseAssembly self BackingModule) -> ~ P (EvCreateEngine self) ->
  preserves (quiet P) (_get_execution_engine W self).
Proof.
  intros. unfold _get_execution_engine.
  split_body; auto using call_out_quiet, setattr_quiet, new_engine_quiet.
Qed.

End Tally.

(** ** [compile] runs the pipeline at most once *)

Lemma compile_noop self q :
  is_Some (entry_point self q) -> compile W self q = (Ok tt, q).
Proof.
  unfold entry_point, c_entry_func. intros [f Hf].
  unfold compile, bind, getattr.
  destruct (models q !! self) as [o |]; simpl in *; [| done].
  destruct (lookup_attr _ _) as [g |]; simpl in *; [| done].
  by destruct (cf_addr g =? 0)%Z.
Qed.

Lemma repeat_compile_noop self n q :
  is_Some (entry_point self q) -> repeat_call W n (compile W self) q = (Ok tt, q).
Proof.
  intros H. induction n as [| n IH]; simpl; [done |].
  by rewrite (bind_Ok _ _ _ _ _ (compile_noop _ _ H)).
Qed.

Lemma repeat_call_stops n (m : M W unit) p :
  (m p).1 <> Ok tt -> repeat_call W (S n) m p = m p.
Proof.
  simpl. unfold bind. destruct (m p) as [[[] | e |] q]; simpl; congruence.
Qed.

(** The frontend and the optimizer are called by
    [_get_optimized_module] only, and once each. *)
Lemma _get_optimized_module_grows self ev :
  upstream self ev ->
  preserves (grows_by (fun e => e = ev) 1) (_get_optimized_module W self).
Proof.
  intros Hev p. unfold grows_by.
  unfold _get_optimized_module, _get_ir_from_frontend, bind, getattr, getfield,
    setattr, call_out, ret.
  destruct Hev as [-> | [-> | [-> | ->]]];
    repeat (case_match; simplify_eq/=);
    rewrite ?tally_cons; repeat case_decide; simplify_eq; lia.
Qed.

Lemma upstream_not_engine self ev :
  upstream self ev ->
  EvInitialize self <> ev /\ EvCreateTargetMachine self <> ev /\
  EvParseAssembly self BackingModule <> ev /\ EvCreateEngine self <> ev /\
  EvAddModule self <> ev /\ EvFinalizeObject self <> ev /\
  EvRunStaticConstructors self <> ev /\
  EvGetFunctionAddress self "forest_root" <> ev.
Proof. intros [-> | [-> | [-> | ->]]]; by repeat split. Qed.

Lemma compile_eq self :
  compile W self =
  let* entry := getattr obj_c_entry_func cls_c_entry_func self in
  if truthy_cfunc entry then ret tt
  else
    let* exec_engine := _get_execution_engine W self in
    let* module := _get_optimized_module W self in
    compile_link W self exec_engine module.
Proof. reflexivity. Qed.

Lemma compile_link_quiet self ev exec_engine module :
  upstream self ev ->
  preserves (quiet (fun e => e = ev)) (compile_link W self exec_engine module).
Proof.
  intros Hev. destruct (upstream_not_engine _ _ Hev) as (? & ? & ? & ? & ? & ? & ? & ?).
  unfold compile_link.
  split_body;
    auto using engine_call_quiet, engine_query_quiet, new_cfunc_quiet, setattr_quiet.
Qed.

Lemma compile_link_keeps_optimized_ir self exec_engine module :
  preserves (keeps (optimized_ir self)) (compile_link W self exec_engine module).
Proof. unfold compile_link. split_body; auto with keeps_db typeclass_instances. Qed.

Lemma preserves_quiet_grows {A} (P : event -> Prop) `{!forall e, Decision (P e)}
    n (m : M W A) :
  preserves (quiet P) m -> preserves (grows_by P n) m.
Proof. intros Hq p. apply quiet_grows, Hq. Qed.

Lemma compile_grows self ev :
  upstream self ev -> preserves (grows_by (fun e => e = ev) 1) (compile W self).
Proof.
  intros Hev. destruct (upstream_not_engine _ _ Hev) as (? & ? & ? & ? & _).
  unfold compile.
  apply (grows_bind _ 0 1).
  { apply preserves_quiet_grows, preserves_pure; [typeclasses eauto | apply getattr_state]. }
  intros entry. destruct (truthy_cfunc entry).
  { apply preserves_quiet_grows, preserves_pure; [typeclasses eauto | done]. }
  apply (grows_bind _ 0 1).
  { by apply preserves_quiet_grows, _get_execution_engine_quiet. }
  intros exec_engine. apply (grows_bind _ 1 0).
  { by apply _get_optimized_module_grows. }
  intros module. by apply preserves_quiet_grows, (compile_link_quiet self).
Qed.

Global Instance steady_preorder self ev : PreOrder (steady (W:=W) self ev).
Proof.
  split.
  - intros p Hp. split; [done | reflexivity].
  - intros p q r H1 H2 Hp. destruct (H1 Hp) as [Hq E1].
    destruct (H2 Hq) as [Hr E2]. split; [done | by etrans].
Qed.

Lemma steady_intro {A} self ev (m : M W A) :
  preserves (keeps (optimized_ir self)) m ->
  preserves (quiet (fun e => e = ev)) m ->
  preserves (steady self ev) m.
Proof.
  intros Hk Hq p Hp. split; [| apply Hq].
  by rewrite (Hk p).
Qed.

Lemma _get_execution_engine_keeps_optimized_ir self :
  preserves (keeps (optimized_ir self)) (_get_execution_engine W self).
Proof. unfold _get_execution_engine. split_body; auto with keeps_db typeclass_instances. Qed.

Lemma _get_optimized_module_cached self p m :
  optimized_ir self p = Some m -> _get_optimized_module W self p = (Ok m, p).
Proof.
  unfold optimized_ir, _get_optimized_module, bind, getattr. intros H.
  destruct (models p !! self) as [o |]; simpl in *; [| done].
  by rewrite H.
Qed.

Lemma _get_optimized_module_steady self ev :
  preserves (steady self ev) (_get_optimized_module W self).
Proof.
  intros p [m Hm]. rewrite (_get_optimized_module_cached _ _ _ Hm). simpl.
  split; [by exists m | reflexivity].
Qed.

Lemma compile_steady self ev :
  upstream self ev -> preserves (steady self ev) (compile W self).
Proof.
  intros Hev. destruct (upstream_not_engine _ _ Hev) as (? & ? & ? & ? & ? & ? & ? & ?).
  unfold compile.
  split_body_with
    ltac:(first
      [ apply _get_optimized_module_steady
      | apply steady_intro;
        auto using _get_execution_engine_keeps_optimized_ir, _get_execution_engine_quiet,
          engine_call_quiet, engine_query_quiet, new_cfunc_quiet, setattr_quiet
          with keeps_db typeclass_instances ]).
Qed.

Lemma bind_Ok_inv {A B} (m : M W A) (k : A -> M W B) p b r :
  bind m k p = (Ok b, r) -> exists a q, m p = (Ok a, q) /\ k a q = (Ok b, r).
Proof.
  unfold bind. destruct (m p) as [[a | e |] q]; intros H; simplify_eq; eauto.
Qed.

Lemma getattr_Ok_inv {A} (fo : ModelObj W -> option A) fc self p v q :
  getattr fo fc self p = (Ok v, q) ->
  q = p /\ exists o, models p !! self = Some o /\ v = lookup_attr (fo o) (fc (model_class p)).
Proof.
  unfold getattr. destruct (models p !! self) as [o |]; intros H; simplify_eq. eauto.
Qed.

Lemma _get_optimized_module_Ok self p m q :
  _get_optimized_module W self p = (Ok m, q) -> optimized_ir self q = Some m.
Proof.
  unfold _get_optimized_module, _get_ir_from_frontend, bind, getattr, getfield,
    setattr, call_out, ret, optimized_ir.
  repeat (case_match; simplify_eq/=); intros; simplify_eq/=;
    rewrite ?lookup_insert_eq; simpl; try done.
  all: by simplify_map_eq.
Qed.

(** A call of [compile] that returns leaves the optimized module
    cached, unless the entry point was there already. *)
Lemma compile_Ok_optimized self p :
  (compile W self p).1 = Ok tt ->
  is_Some (entry_point self p) \/ is_Some (optimized_ir self (compile W self p).2).
Proof.
  destruct (compile W self p) as [r q] eqn:E. simpl. intros ->.
  rewrite compile_eq in E.
  apply bind_Ok_inv in E as (entry & p1 & E1 & E).
  apply getattr_Ok_inv in E1 as (-> & o & Ho & ->).
  destruct (truthy_cfunc _) eqn:Ht.
  - left. unfold entry_point, c_entry_func. rewrite Ho. simpl.
    unfold truthy_cfunc in Ht. destruct (lookup_attr _ _) as [f |]; [| done].
    destruct (cf_addr f =? 0)%Z; [done | by eexists].
  - right.
    apply bind_Ok_inv in E as (exec_engine & p2 & _ & E).
    apply bind_Ok_inv in E as (module & p3 & E3 & E).
    apply _get_optimized_module_Ok in E3.
    pose proof (compile_link_keeps_optimized_ir self exec_engine module p3) as K.
    rewrite E in K. unfold keeps in K. simpl in K. rewrite K, E3. by eexists.
Qed.

(** After a call of [compile] that returned, further calls reach neither
    the frontend nor the optimizer. *)
Lemma repeat_compile_settled self ev n p :
  upstream self ev ->
  is_Some (entry_point self p) \/ is_Some (optimized_ir self p) ->
  occurrences ev (trace (repeat_call W n (compile W self) p).2) = occurrences ev (trace p).
Proof.
  intros Hev [He | Ho].
  { by rewrite (repeat_compile_noop _ _ _ He). }
  revert p Ho. induction n as [| n IH]; intros p Ho; [done |].
  destruct (compile_steady self ev Hev p Ho) as [Ho' Hq].
  simpl. destruct (bind_state (compile W self) (fun _ => repeat_call W n (compile W self)) p)
    as [-> | (a & _ & ->)].
  - apply Hq.
  - rewrite (IH _ Ho'). apply Hq.
Qed.

Lemma repeat_compile_grows self ev n p :
  upstream self ev ->
  occurrences ev (trace (repeat_call W n (compile W self) p).2) <= occurrences ev (trace p) + 1.
Proof.
  intros Hev. destruct n as [| n]; [simpl; lia |].
  pose proof (compile_grows self ev Hev p) as Hg. unfold grows_by in Hg.
  destruct (compile W self p) as [r q] eqn:E. simpl in Hg.
  destruct r as [[] | e |].
  - simpl. rewrite (bind_Ok _ _ _ _ _ E).
    rewrite repeat_compile_settled; [done | done |].
    pose proof (compile_Ok_optimized self p) as Hs. rewrite E in Hs.
    destruct (Hs eq_refl) as [He | Ho]; [| by right].
    left. rewrite (compile_noop _ _ He) in E. by simplify_eq.
  - rewrite repeat_call_stops; rewrite E; [done | simpl; congruence].
  - rewrite repeat_call_stops; rewrite E; [done | simpl; congruence].
Qed.

(** C9: Each instance owns its caches.  Whatever sequence of method
    calls is made on the instance [i] (each may return or raise), the
    class object keeps its attributes, and another instance [j] keeps its
    [__dict__], so that its four cached attributes read as before: the
    class-level defaults are only ever read, never assigned. *)
Theorem instances_own_their_caches (i j : nat) (cs : list (method_call W)) p :
  i <> j ->
  let q := run_calls W i cs p in
  model_class q = model_class p /\
  models q !! j = models p !! j /\
  frontend_ir j q = frontend_ir j p /\
  optimized_ir j q = optimized_ir j p /\
  engine j q = engine j p /\
  c_entry_func j q = c_entry_func j p.
Proof.
  intros Hij q. destruct (run_calls_frame i j cs p Hij) as [Hm Hc]. fold q in Hm, Hc.
  unfold frontend_ir, optimized_ir, engine, c_entry_func.
  rewrite Hm, Hc. by repeat split.
Qed.

(** ** Saving and loading the optimized module *)

Lemma _get_ir_from_frontend_keeps_engine self :
  preserves (keeps (engine self)) (_get_ir_from_frontend W self).
Proof. unfold _get_ir_from_frontend. split_body; auto with keeps_db typeclass_instances. Qed.

Lemma _get_ir_from_frontend_keeps_c_entry_func self :
  preserves (keeps (c_entry_func self)) (_get_ir_from_frontend W self).
Proof. unfold _get_ir_from_frontend. split_body; auto with keeps_db typeclass_instances. Qed.

Lemma _get_optimized_module_keeps_engine self :
  preserves (keeps (engine self)) (_get_optimized_module W self).
Proof.
  unfold _get_optimized_module.
  split_body_with ltac:(first [ apply _get_ir_from_frontend_keeps_engine
                              | auto with keeps_db typeclass_instances ]).
Qed.

Lemma _get_optimized_module_keeps_c_entry_func self :
  preserves (keeps (c_entry_func self)) (_get_optimized_module W self).
Proof.
  unfold _get_optimized_module.
  split_body_with ltac:(first [ apply _get_ir_from_frontend_keeps_c_entry_func
                              | auto with keeps_db typeclass_instances ]).
Qed.

Lemma save_model_ir_keeps_engine self filepath :
  preserves (keeps (engine self)) (save_model_ir W self filepath).
Proof.
  unfold save_model_ir.
  split_body_with ltac:(first [ apply _get_optimized_module_keeps_engine
                              | auto with keeps_db typeclass_instances ]).
Qed.

Lemma save_model_ir_keeps_c_entry_func self filepath :
  preserves (keeps (c_entry_func self)) (save_model_ir W self filepath).
Proof.
  unfold save_model_ir.
  split_body_with ltac:(first [ apply _get_optimized_module_keeps_c_entry_func
                              | auto with keeps_db typeclass_instances ]).
Qed.

(** A cache miss of [_get_optimized_module] that returns has filled the
    frontend cache as well. *)
Lemma _get_optimized_module_Ok_frontend self p m q :
  optimized_ir self p = None ->
  _get_optimized_module W self p = (Ok m, q) -> is_Some (frontend_ir self q).
Proof.
  unfold _get_optimized_module, _get_ir_from_frontend, bind, getattr, getfield,
    setattr, call_out, ret, optimized_ir, frontend_ir.
  intros Hp.
  repeat (case_match; simplify_eq/=); intros; simplify_eq/=;
    rewrite ?lookup_insert_eq; simpl; try done.
  all: simplify_map_eq; by eexists.
Qed.

(** C3 (amended): [save_model_ir] never touches the engine or the entry
    point.  When the optimized module is already cached and the path can
    be written, it returns having changed nothing but the file it writes
    (the text of the cached module) and the trace; when the path cannot be
    written, the error of [write_text] is raised and nothing but the trace
    changes.  When the optimized module is absent and the call returns,
    the call has run [_get_optimized_module] first: both the optimized
    module and the frontend module are cached afterwards, and the file
    holds the text of the module now cached. *)
Theorem save_model_ir_effect self filepath p :
  let q := (save_model_ir W self filepath p).2 in
  engine self q = engine self p /\
  c_entry_func self q = c_entry_func self p /\
  (forall m, optimized_ir self p = Some m ->
     save_model_ir W self filepath p =
       if path_writable W filepath
       then (Ok tt, set_files (<[filepath := module_str W m]> (files p))
                      (set_trace (EvWriteText filepath :: trace p) p))
       else (Raise (OSError filepath), set_trace (EvWriteText filepath :: trace p) p)) /\
  (optimized_ir self p = None ->
   (save_model_ir W self filepath p).1 = Ok tt ->
   exists m, optimized_ir self q = Some m /\ is_Some (frontend_ir self q) /\
     files q !! filepath = Some (module_str W m)).
Proof.
  intros q. split; [apply save_model_ir_keeps_engine |].
  split; [apply save_model_ir_keeps_c_entry_func |].
  split.
  - intros m Hm. unfold save_model_ir.
    rewrite (bind_Ok _ _ _ _ _ (_get_optimized_module_cached _ _ _ Hm)).
    unfold write_text. by case_match.
  - intros Hnone Hok. subst q.
    destruct (save_model_ir W self filepath p) as [r q] eqn:E. simpl in *. subst r.
    unfold save_model_ir in E.
    apply bind_Ok_inv in E as (m & p1 & E1 & E2).
    exists m. unfold write_text in E2. case_match; simplify_eq.
    split; [by apply (_get_optimized_module_Ok _ _ _ _ E1) |].
    split; [by apply (_get_optimized_module_Ok_frontend _ _ _ _ Hnone E1) |].
    simpl. apply lookup_insert_eq.
Qed.

(** C7: A blob that does not parse.  When the file holds a text that
    [llvm.parse_assembly] refuses with an exception, [load_model_ir]
    raises that exception and the assignment to [_IR_module] is never
    reached: the process is as before except for the trace (the file was
    read and a parse was attempted), so every cached attribute reads as
    before. *)
Theorem load_model_ir_malformed self filepath blob e p :
  files p !! filepath = Some blob ->
  parse_assembly W blob = Raise e ->
  let r := load_model_ir W self filepath p in
  r.1 = Raise e /\
  r.2 = set_trace (EvParseAssembly self LoadedIR :: EvReadText filepath :: trace p) p /\
  optimized_ir self r.2 = optimized_ir self p /\
  frontend_ir self r.2 = frontend_ir self p /\
  engine self r.2 = engine self p /\
  c_entry_func self r.2 = c_entry_func self p.
Proof.
  intros Hfile Hparse r. subst r.
  unfold load_model_ir, bind, read_text, call_out. simpl.
  rewrite Hfile. simpl. rewrite Hparse. by repeat split.
Qed.

(** ** What [compile] binds *)

Lemma _get_execution_engine_Ok self p eng q :
  _get_execution_engine W self p = (Ok eng, q) -> engine self q = Some eng.
Proof.
  unfold _get_execution_engine, bind, getattr, setattr, call_out, new_engine, ret, engine.
  repeat (case_match; simplify_eq/=); intros; simplify_eq/=;
    rewrite ?lookup_insert_eq; simpl; try done.
  all: by simplify_map_eq.
Qed.



(** The link step when the three engine calls return: it returns, with
    the binding of the address the engine reports. *)
Lemma compile_link_returns self eng module p o e0 e1 e2 e3 :
  models p !! self = Some o ->
  engines p !! eng = Some e0 ->
  add_module W e0 module = Ok e1 ->
  finalize_object W e1 = Ok e2 ->
  run_static_constructors W e2 = Ok e3 ->
  exists q,
    compile_link W self eng module p = (Ok tt, q) /\
    engines q !! eng = Some e3 /\
    model_class q = model_class p /\
    models q =
      <[self := set_c_entry_func W
                  (mk_CFuncPtr (next_id p) (get_function_address W e3 "forest_root")) o]>
        (models p).
Proof.
  intros Ho He Ha Hf Hr.
  unfold compile_link, bind, engine_call, engine_query, new_cfunc, setattr. simpl.
  rewrite He, Ha. simpl. rewrite lookup_insert_eq, Hf. simpl.
  rewrite lookup_insert_eq, Hr. simpl. rewrite lookup_insert_eq. simpl. rewrite Ho.
  eexists. split; [reflexivity |]. simpl. by rewrite lookup_insert_eq.
Qed.

(** C6 (amended): [compile] does not look at the address it resolves.
    When the entry point is absent, the engine and the optimized module
    are obtained, and adding the module, finalizing and running the
    static constructors succeed, then [compile()] returns (nothing is
    raised) whatever address the engine reports for [forest_root], and
    the binding it caches wraps exactly that address.  If that is the
    null address, the binding is null and the instance still has no entry
    point; otherwise the binding is the entry point. *)
Theorem compile_binds_reported_address self p eng p2 module p3 e0 e1 e2 e3 :
  entry_point self p = None ->
  _get_execution_engine W self p = (Ok eng, p2) ->
  _get_optimized_module W self p2 = (Ok module, p3) ->
  engines p3 !! eng = Some e0 ->
  add_module W e0 module = Ok e1 ->
  finalize_object W e1 = Ok e2 ->
  run_static_constructors W e2 = Ok e3 ->
  let addr := get_function_address W e3 "forest_root" in
  let f := mk_CFuncPtr (next_id p3) addr in
  let r := compile W self p in
  r.1 = Ok tt /\
  engine self r.2 = Some eng /\
  engines r.2 !! eng = Some e3 /\
  c_entry_func self r.2 = Some f /\
  (addr = 0%Z -> entry_point self r.2 = None) /\
  (addr <> 0%Z -> entry_point self r.2 = Some f).
Proof.
  intros Hnone E2 E3 He Ha Hf Hr addr f r.
  assert (K : engine self p3 = Some eng).
  { pose proof (_get_optimized_module_keeps_engine self p2) as K.
    rewrite E3 in K. unfold keeps in K. simpl in K.
    by rewrite K, (_get_execution_engine_Ok _ _ _ _ E2). }
  assert (Ho : exists o, models p3 !! self = Some o /\
                 lookup_attr (obj_execution_engine o)
                   (cls_execution_engine (model_class p3)) = Some eng).
  { unfold engine in K. destruct (models p3 !! self) as [o |]; [by exists o | done]. }
  destruct Ho as (o & Ho & Heng).
  destruct (compile_link_returns self eng module p3 o e0 e1 e2 e3 Ho He Ha Hf Hr)
    as (q & El & Hq & Hc & Hm).
  assert (Ho0 : exists o0, models p !! self = Some o0).
  { unfold _get_execution_engine, bind, getattr in E2.
    destruct (models p !! self) as [o0 |]; [by eexists | done]. }
  destruct Ho0 as [o0 Ho0].
  assert (Eg : getattr obj_c_entry_func cls_c_entry_func self p =
               (Ok (lookup_attr (obj_c_entry_func o0) (cls_c_entry_func (model_class p))), p)).
  { unfold getattr. by rewrite Ho0. }
  assert (Hfalsy : truthy_cfunc (lookup_attr (obj_c_entry_func o0)
                                   (cls_c_entry_func (model_class p))) = false).
  { unfold entry_point, c_entry_func in Hnone. rewrite Ho0 in Hnone. simpl in Hnone.
    unfold truthy_cfunc. destruct (lookup_attr _ _) as [g |]; [| done].
    by destruct (cf_addr g =? 0)%Z. }
  assert (E : compile W self p = (Ok tt, q)).
  { rewrite compile_eq. rewrite (bind_Ok _ _ _ _ _ Eg). rewrite Hfalsy.
    rewrite (bind_Ok _ _ _ _ _ E2). by rewrite (bind_Ok _ _ _ _ _ E3). }
  subst r f addr. rewrite E. simpl.
  unfold engine, entry_point, c_entry_func. rewrite Hm, Hc, lookup_insert_eq. simpl.
  repeat split; try done.
  - by intros ->.
  - intros Hne. apply Z.eqb_neq in Hne. by rewrite Hne.
Qed.

(** ** [predict] *)

Lemma _to_1d_ndarray_eq (data : pyobj (float64 W)) :
  _to_1d_ndarray W data =
  match accepted_array W data with
  | Some a =>
      match shape a with
      | [n_preds; _] =>
          match as_float64 (f64_of_int W) (elems a) with
          | Some buf => Ok (buf, n_preds)
          | None => Raise OverflowError
          end
      | sh => Raise (ValueError (NotTwoDimensional (length sh)))
      end
  | None =>
      match data with
      | PyList _ => Raise (ValueError CannotConvertList)
      | _ => Raise (ValueError (ExpectingListOrNdarray (type_of data)))
      end
  end.
Proof.
  unfold _to_1d_ndarray, accepted_array.
  destruct data as [x | z | xs | xs | a]; try done.
  by destruct (np_array _ xs).
Qed.







Lemma compile_native_quiet self :
  preserves (quiet (fun e => is_native_call e = true)) (compile W self).
Proof.
  unfold compile.
  split_body_with
    ltac:(first [ apply call_out_quiet | apply engine_call_quiet | apply engine_query_quiet
                | apply setattr_quiet | apply new_engine_quiet | apply new_cfunc_quiet ];
          done).
Qed.


Lemma c_entry_func_Some self q f :
  c_entry_func self q = Some f ->
  exists o, models q !! self = Some o /\
    getattr obj_c_entry_func cls_c_entry_func self q = (Ok (Some f), q).
Proof.
  unfold c_entry_func, getattr. destruct (models q !! self) as [o |]; [| done].
  simpl. intros ->. eauto.
Qed.

(** [predict] from the call of the entry point on, once [compile] has
    returned and the input has passed the validation. *)
Lemma predict_call self data p q buf n f o :
  compile W self p = (Ok tt, q) ->
  _to_1d_ndarray W data = Ok (buf, n) ->
  c_entry_func self q = Some f ->
  models q !! self = Some o ->
  let count := c_int (Z.of_nat n) in
  predict W self data p =
    (if (cf_addr f =? 0)%Z then Fault
     else Ok (apply_objective W (objective_transf o)
                (imap (native_cell W (cf_addr f) buf count) (replicate n (f64_zero W)))),
     set_trace (EvNativeCall self (cf_addr f) (Z.of_nat n) :: trace q) q).
Proof.
  intros Ec Ed Hf Ho count. unfold predict.
  rewrite (bind_Ok _ _ _ _ _ Ec). rewrite Ed.
  destruct (c_entry_func_Some _ _ _ Hf) as (o' & Ho' & Eg).
  unfold bind at 1. unfold lift. rewrite (bind_Ok _ _ _ _ _ Eg). simpl.
  unfold bind, call_entry, call_out, getfield. simpl. fold count.
  destruct (cf_addr f =? 0)%Z; [done |]. simpl. by rewrite Ho.
Qed.

Lemma predict_invalid self data p q e :
  compile W self p = (Ok tt, q) ->
  _to_1d_ndarray W data = Raise e ->
  predict W self data p = (Raise e, q).
Proof.
  intros Ec Ed. unfold predict. rewrite (bind_Ok _ _ _ _ _ Ec). by rewrite Ed.
Qed.


(** ** Lists of rows are flattened row by row *)

Lemma np_stack_floats (x : float64 W) (r : list (float64 W)) :
  np_stack (f64_of_int W) (map (np_asarray (f64_of_int W)) (PyFloat <$> (x :: r))) =
  Some ([], BufFloat64 (x :: r)).
Proof.
  revert x. induction r as [| y r IH]; intros x; [done |].
  change (PyFloat <$> x :: y :: r) with (PyFloat x :: (PyFloat <$> y :: r)).
  rewrite map_cons. simpl np_asarray at 1.
  cbn [np_stack]. cbn [fmap list_fmap map] in *. rewrite IH. by rewrite decide_True.
Qed.

Lemma np_asarray_row (r : list (float64 W)) :
  np_asarray (f64_of_int W) (py_row r) = Some (mk_ndarray [length r] (BufFloat64 r)).
Proof.
  destruct r as [| x r]; [done |].
  unfold py_row. change (PyFloat <$> x :: r) with (PyFloat x :: (PyFloat <$> r)).
  cbn [np_asarray].
  change (PyFloat x :: (PyFloat <$> r)) with (PyFloat <$> x :: r).
  rewrite np_stack_floats. by rewrite length_fmap.
Qed.

Lemma np_stack_cons (a : ndarray (float64 W)) b rest :
  np_stack (f64_of_int W) (Some a :: b :: rest) =
  match np_stack (f64_of_int W) (b :: rest) with
  | Some (sh, bf) =>
      if decide (shape a = sh) then Some (sh, buffer_app (f64_of_int W) (elems a) bf)
      else None
  | None => None
  end.
Proof. reflexivity. Qed.

Lemma np_stack_rows k (r : list (float64 W)) (rows : list (list (float64 W))) :
  Forall (fun r => length r = k) (r :: rows) ->
  np_stack (f64_of_int W) (map (np_asarray (f64_of_int W)) (py_row <$> (r :: rows))) =
  Some ([k], BufFloat64 (concat (r :: rows))).
Proof.
  revert r. induction rows as [| r' rows IH]; intros r Hall;
    apply Forall_cons in Hall as [Hr Hall].
  - rewrite fmap_cons, map_cons, np_asarray_row. simpl.
    by rewrite Hr, app_nil_r.
  - specialize (IH r' Hall).
    rewrite fmap_cons, map_cons, np_asarray_row.
    rewrite fmap_cons, map_cons in *.
    rewrite np_stack_cons, IH. cbn [shape elems].
    by rewrite Hr, decide_True.
Qed.

Lemma np_array_rows k (rows : list (list (float64 W))) :
  rows <> [] ->
  Forall (fun r => length r = k) rows ->
  np_array (f64_of_int W) (py_row <$> rows) =
  Some (mk_ndarray [length rows; k] (BufFloat64 (concat rows))).
Proof.
  intros Hne Hall. destruct rows as [| r rows]; [done |].
  unfold np_array.
  change (py_row <$> r :: rows) with (py_row r :: (py_row <$> rows)).
  cbn [np_asarray].
  change (py_row r :: (py_row <$> rows)) with (py_row <$> r :: rows).
  rewrite (np_stack_rows k) by done.
  by rewrite length_fmap.
Qed.

(** ** What [predict] checks and what it returns *)


(** C10: An empty batch.  On a compiled model, a float64 array of shape
    [(0, k)] makes [predict] call the entry point with the count 0 and an
    empty output buffer and return the empty array; nothing is raised. *)
Theorem predict_zero_rows self (k : nat) xs p f :
  entry_point self p = Some f ->
  predict W self (PyNdarray (mk_ndarray [0; k] (BufFloat64 xs))) p =
    (Ok [], set_trace (EvNativeCall self (cf_addr f) 0 :: trace p) p).
Proof.
  intros He.
  assert (Ec : compile W self p = (Ok tt, p)) by (apply compile_noop; by eexists).
  assert (Hf : c_entry_func self p = Some f /\ (cf_addr f =? 0)%Z = false).
  { unfold entry_point in He. destruct (c_entry_func self p) as [g |]; [| done].
    destruct (cf_addr g =? 0)%Z eqn:Hz; [done |]. by simplify_eq. }
  destruct Hf as [Hf Hz].
  destruct (c_entry_func_Some _ _ _ Hf) as (o & Ho & _).
  rewrite (predict_call self (PyNdarray (mk_ndarray [0; k] (BufFloat64 xs))) p p xs 0 f o
             Ec eq_refl Hf Ho).
  by rewrite Hz.
Qed.


(** C4 (amended): A 1-dimensional input.  [predict] calls [compile()]
    before it looks at the input: on an input that numpy sees as a 1-D
    array it behaves as [compile()] followed by raising the [ValueError]
    "Data must be 2 dimensional, is 1 dimensional", so on a fresh model
    the engine, the frontend and the optimizer have run by the time the
    error is raised; the entry point itself is never called. *)
Theorem predict_one_dimensional self data a (m : nat) p :
  accepted_array W data = Some a ->
  shape a = [m] ->
  predict W self data p =
    (let* _ := compile W self in raise (ValueError (NotTwoDimensional 1))) p /\
  native_calls (trace (predict W self data p).2) = native_calls (trace p).
Proof.
  intros Ha Hs.
  assert (Hv : _to_1d_ndarray W data = Raise (ValueError (NotTwoDimensional 1))).
  { by rewrite _to_1d_ndarray_eq, Ha, Hs. }
  assert (E : predict W self data p =
              (let* _ := compile W self in raise (ValueError (NotTwoDimensional 1))) p).
  { unfold predict. destruct (compile W self p) as [[[] | e |] q] eqn:Ec.
    - rewrite !(bind_Ok _ _ _ _ _ Ec). by rewrite Hv.
    - by rewrite !(bind_Raise _ _ _ _ _ Ec).
    - by rewrite !(bind_Fault _ _ _ _ Ec). }
  split; [done |]. rewrite E.
  pose proof (compile_native_quiet self p) as H. unfold quiet in H.
  unfold bind, raise. by destruct (compile W self p) as [[[] | e |] q].
Qed.


(** * Beyond single calls: what holds over the life of an instance *)

(** ** Every method respects a relation that its parts respect *)

Lemma compile_preserves (R : relation (Process W)) `{!PreOrder R} self :
  preserves R (_get_execution_engine W self) ->
  preserves R (_get_optimized_module W self) ->
  (forall eng module, preserves R (compile_link W self eng module)) ->
  preserves R (compile W self).
Proof.
  intros He Ho Hl. rewrite compile_eq.
  split_body_with ltac:(first [ apply He | apply Ho | apply Hl ]).
Qed.

Lemma predict_preserves (R : relation (Process W)) `{!PreOrder R} self data :
  preserves R (compile W self) ->
  (forall f input n preds, preserves R (call_entry W self f input n preds)) ->
  preserves R (predict W self data).
Proof.
  intros Hc He. unfold predict.
  split_body_with ltac:(first [ apply Hc | apply He ]).
Qed.

Lemma run_call_preserves (R : relation (Process W)) `{!PreOrder R} self c p :
  preserves R (_get_ir_from_frontend W self) ->
  preserves R (_get_execution_engine W self) ->
  preserves R (_get_optimized_module W self) ->
  preserves R (compile W self) ->
  (forall f input n preds, preserves R (call_entry W self f input n preds)) ->
  (forall r, preserves R (call_out (W:=W) (A:=ModuleRef W) (EvParseAssembly self LoadedIR) r)) ->
  (forall path, preserves R (read_text W path)) ->
  (forall path text, preserves R (write_text W path text)) ->
  (forall m, preserves R (setattr (W:=W) (set_IR_module W m) self)) ->
  R p (run_call W self c p).
Proof.
  intros Hf He Ho Hc Hn Hp Hr Hw Hs. destruct c; simpl.
  - unfold num_feature. split_body.
  - apply Hf.
  - apply He.
  - apply Ho.
  - unfold save_model_ir. split_body_with ltac:(first [ apply Ho | apply Hw ]).
  - unfold load_model_ir. split_body_with ltac:(first [ apply Hr | apply Hp | apply Hs ]).
  - apply Hc.
  - by apply predict_preserves.
Qed.

Lemma run_calls_preserves (R : relation (Process W)) `{!PreOrder R} self cs p :
  (forall c q, c ∈ cs -> R q (run_call W self c q)) -> R p (run_calls W self cs p).
Proof.
  revert p. induction cs as [| c cs IH]; intros p H; simpl; [reflexivity |].
  etrans; [apply H; left |]. apply IH. intros c' q Hc'. apply H. by right.
Qed.

(** ** More steps that make no counted call or keep an observation *)

Section MoreTally.
Context (P : event -> Prop) `{!forall e, Decision (P e)}.

Lemma read_text_quiet path : ~ P (EvReadText path) -> preserves (quiet P) (read_text W path).
Proof.
  intros Hev p. unfold quiet, read_text. case_match; simpl; by rewrite tally_cons_other.
Qed.

Lemma write_text_quiet path text :
  ~ P (EvWriteText path) -> preserves (quiet P) (write_text W path text).
Proof.
  intros Hev p. unfold quiet, write_text. case_match; simpl; by rewrite tally_cons_other.
Qed.

Lemma call_entry_quiet self f input n preds :
  (forall addr count, ~ P (EvNativeCall self addr count)) ->
  preserves (quiet P) (call_entry W self f input n preds).
Proof. intros Hev. unfold call_entry. case_match; by apply call_out_quiet. Qed.

Lemma _get_ir_from_frontend_quiet self :
  ~ P (EvFrontend self) -> preserves (quiet P) (_get_ir_from_frontend W self).
Proof.
  intros. unfold _get_ir_from_frontend.
  split_body; auto using call_out_quiet, setattr_quiet.
Qed.

Lemma _get_optimized_module_quiet self :
  ~ P (EvFrontend self) -> ~ P (EvParseAssembly self FrontendIR) ->
  ~ P (EvVerify self) -> ~ P (EvRunPasses self) ->
  preserves (quiet P) (_get_optimized_module W self).
Proof.
  intros. unfold _get_optimized_module.
  split_body_with ltac:(first [ by apply _get_ir_from_frontend_quiet
                              | by apply call_out_quiet | apply setattr_quiet ]).
Qed.

Lemma compile_link_quiet_when self eng module :
  ~ P (EvAddModule self) -> ~ P (EvFinalizeObject self) ->
  ~ P (EvRunStaticConstructors self) -> ~ P (EvGetFunctionAddress self "forest_root") ->
  preserves (quiet P) (compile_link W self eng module).
Proof.
  intros. unfold compile_link.
  split_body;
    auto using engine_call_quiet, engine_query_quiet, new_cfunc_quiet, setattr_quiet.
Qed.

Global Instance once_preorder {X} (obs : Process W -> option X) : PreOrder (once obs P).
Proof.
  split.
  - intros p v Hv. split; [done | reflexivity].
  - intros p q r H1 H2 v Hv. destruct (H1 v Hv) as [Hq E1].
    destruct (H2 v Hq) as [Hr E2]. split; [done | by etrans].
Qed.

Lemma once_intro {X A} (obs : Process W -> option X) (m : M W A) :
  preserves (keeps obs) m -> preserves (quiet P) m -> preserves (once obs P) m.
Proof.
  intros Hk Hq p v Hv. split; [| apply Hq]. by rewrite (Hk p).
Qed.

End MoreTally.

Lemma keeps_entry_point {A} self (m : M W A) :
  preserves (keeps (c_entry_func self)) m -> preserves (keeps (entry_point self)) m.
Proof. intros H p. unfold keeps, entry_point. by rewrite (H p). Qed.

Lemma set_IR_module_frontend_keeps_optimized_ir self ir :
  preserves (keeps (optimized_ir self)) (setattr (W:=W) (set_IR_module_frontend W ir) self).
Proof.
  apply setattr_keeps. intros p o Ho. unfold optimized_ir.
  by rewrite lookup_after_setattr, Ho.
Qed.

Lemma set_IR_module_keeps_frontend_ir self m :
  preserves (keeps (frontend_ir self)) (setattr (W:=W) (set_IR_module W m) self).
Proof.
  apply setattr_keeps. intros p o Ho. unfold frontend_ir.
  by rewrite lookup_after_setattr, Ho.
Qed.

Lemma set_c_entry_func_keeps_frontend_ir self f :
  preserves (keeps (frontend_ir self)) (setattr (W:=W) (set_c_entry_func W f) self).
Proof.
  apply setattr_keeps. intros p o Ho. unfold frontend_ir.
  by rewrite lookup_after_setattr, Ho.
Qed.

#[local] Hint Resolve set_IR_module_frontend_keeps_optimized_ir set_IR_module_keeps_frontend_ir
  set_c_entry_func_keeps_frontend_ir : keeps_db.

Lemma call_entry_keeps {X} (obs : Process W -> X) `{!ModelOnly obs} self f input n preds :
  preserves (keeps obs) (call_entry W self f input n preds).
Proof. unfold call_entry. case_match; by apply call_out_keeps. Qed.

Lemma _get_execution_engine_keeps_c_entry_func self :
  preserves (keeps (c_entry_func self)) (_get_execution_engine W self).
Proof. unfold _get_execution_engine. split_body; auto with keeps_db typeclass_instances. Qed.

Lemma _get_execution_engine_keeps_frontend_ir self :
  preserves (keeps (frontend_ir self)) (_get_execution_engine W self).
Proof. unfold _get_execution_engine. split_body; auto with keeps_db typeclass_instances. Qed.

Lemma compile_link_keeps_engine self eng module :
  preserves (keeps (engine self)) (compile_link W self eng module).
Proof. unfold compile_link. split_body; auto with keeps_db typeclass_instances. Qed.

Lemma compile_link_keeps_frontend_ir self eng module :
  preserves (keeps (frontend_ir self)) (compile_link W self eng module).
Proof. unfold compile_link. split_body; auto with keeps_db typeclass_instances. Qed.

(** An event that is not in a class given as a disjunction of events. *)
Ltac other_event :=
  unfold link_stage, engine_setup, upstream;
  let H := fresh in intros H; repeat destruct H as [H | H]; discriminate H.

(** ** A present entry point is never replaced *)

Lemma run_call_entry_point_final self c p :
  once (entry_point self) (link_stage self) p (run_call W self c p).
Proof.
  apply run_call_preserves; [typeclasses eauto | ..].
  - apply once_intro.
    + apply keeps_entry_point, _get_ir_from_frontend_keeps_c_entry_func.
    + apply _get_ir_from_frontend_quiet. other_event.
  - apply once_intro.
    + apply keeps_entry_point, _get_execution_engine_keeps_c_entry_func.
    + apply _get_execution_engine_quiet; other_event.
  - apply once_intro.
    + apply keeps_entry_point, _get_optimized_module_keeps_c_entry_func.
    + apply _get_optimized_module_quiet; other_event.
  - intros q f Hf. rewrite compile_noop by (by eexists). split; [done | reflexivity].
  - intros f input n preds. apply once_intro.
    + apply call_entry_keeps, _.
    + apply call_entry_quiet. intros addr count. other_event.
  - intros r. apply once_intro.
    + apply call_out_keeps, _.
    + apply call_out_quiet. other_event.
  - intros path. apply once_intro.
    + apply read_text_keeps, _.
    + apply read_text_quiet. other_event.
  - intros path text. apply once_intro.
    + apply write_text_keeps, _.
    + apply write_text_quiet. other_event.
  - intros m. apply once_intro.
    + apply keeps_entry_point, set_IR_module_keeps_c_entry_func.
    + apply setattr_quiet.
Qed.

(** X1: Once the entry point is present, no sequence of method calls on
    the instance (private getters and [load_model_ir] included, whether
    they return or raise) replaces it, and none of them links, finalizes,
    runs static constructors or resolves [forest_root] again. *)
Theorem entry_point_is_final self (cs : list (method_call W)) p f :
  entry_point self p = Some f ->
  let q := run_calls W self cs p in
  entry_point self q = Some f /\
  tally (link_stage self) (trace q) = tally (link_stage self) (trace p).
Proof.
  intros Hf q.
  apply (run_calls_preserves (once (entry_point self) (link_stage self)) self cs p); [| done].
  intros c r _. apply run_call_entry_point_final.
Qed.

(** ** The engine is built once *)

Lemma _get_execution_engine_cached self p eng :
  engine self p = Some eng -> _get_execution_engine W self p = (Ok eng, p).
Proof.
  unfold engine, _get_execution_engine, bind, getattr. intros H.
  destruct (models p !! self) as [o |]; simpl in *; [| done].
  by rewrite H.
Qed.

Lemma _get_execution_engine_once self :
  preserves (once (engine self) (engine_setup self)) (_get_execution_engine W self).
Proof.
  intros p eng He. rewrite (_get_execution_engine_cached _ _ _ He).
  split; [done | reflexivity].
Qed.

Lemma _get_optimized_module_engine_once self :
  preserves (once (engine self) (engine_setup self)) (_get_optimized_module W self).
Proof.
  apply once_intro; [apply _get_optimized_module_keeps_engine |].
  apply _get_optimized_module_quiet; other_event.
Qed.

Lemma compile_engine_once self :
  preserves (once (engine self) (engine_setup self)) (compile W self).
Proof.
  apply compile_preserves; [typeclasses eauto | ..].
  - apply _get_execution_engine_once.
  - apply _get_optimized_module_engine_once.
  - intros eng module. apply once_intro; [apply compile_link_keeps_engine |].
    apply compile_link_quiet_when; other_event.
Qed.

Lemma run_call_engine_final self c p :
  once (engine self) (engine_setup self) p (run_call W self c p).
Proof.
  apply run_call_preserves; [typeclasses eauto | ..].
  - apply once_intro; [apply _get_ir_from_frontend_keeps_engine |].
    apply _get_ir_from_frontend_quiet. other_event.
  - apply _get_execution_engine_once.
  - apply _get_optimized_module_engine_once.
  - apply compile_engine_once.
  - intros f input n preds. apply once_intro; [apply call_entry_keeps, _ |].
    apply call_entry_quiet. intros addr count. other_event.
  - intros r. apply once_intro; [apply call_out_keeps, _ |].
    apply call_out_quiet. other_event.
  - intros path. apply once_intro; [apply read_text_keeps, _ |].
    apply read_text_quiet. other_event.
  - intros path text. apply once_intro; [apply write_text_keeps, _ |].
    apply write_text_quiet. other_event.
  - intros m. apply once_intro; [apply set_IR_module_keeps_engine | apply setattr_quiet].
Qed.

(** X2: Once the instance holds an engine, every later method call
    reuses that engine: the attribute keeps pointing to the same engine
    object, and LLVM is not initialized, no target machine, backing
    module or MCJIT compiler is created again. *)
Theorem engine_is_final self (cs : list (method_call W)) p eng :
  engine self p = Some eng ->
  let q := run_calls W self cs p in
  engine self q = Some eng /\
  tally (engine_setup self) (trace q) = tally (engine_setup self) (trace p).
Proof.
  intros He q.
  apply (run_calls_preserves (once (engine self) (engine_setup self)) self cs p); [| done].
  intros c r _. apply run_call_engine_final.
Qed.

(** ** The frontend runs once *)

Lemma _get_ir_from_frontend_cached self p ir :
  frontend_ir self p = Some ir -> _get_ir_from_frontend W self p = (Ok ir, p).
Proof.
  unfold frontend_ir, _get_ir_from_frontend, bind, getattr. intros H.
  destruct (models p !! self) as [o |]; simpl in *; [| done].
  by rewrite H.
Qed.

Lemma _get_ir_from_frontend_once self :
  preserves (once (frontend_ir self) (fun e => e = EvFrontend self))
    (_get_ir_from_frontend W self).
Proof.
  intros p ir Hi. rewrite (_get_ir_from_frontend_cached _ _ _ Hi).
  split; [done | reflexivity].
Qed.

Lemma _get_optimized_module_frontend_once self :
  preserves (once (frontend_ir self) (fun e => e = EvFrontend self))
    (_get_optimized_module W self).
Proof.
  unfold _get_optimized_module.
  split_body_with
    ltac:(first
      [ apply _get_ir_from_frontend_once
      | apply once_intro;
        [ auto with keeps_db typeclass_instances
        | first [ by apply call_out_quiet | apply setattr_quiet ] ] ]).
Qed.

Lemma compile_frontend_once self :
  preserves (once (frontend_ir self) (fun e => e = EvFrontend self)) (compile W self).
Proof.
  apply compile_preserves; [typeclasses eauto | ..].
  - apply once_intro; [apply _get_execution_engine_keeps_frontend_ir |].
    by apply _get_execution_engine_quiet.
  - apply _get_optimized_module_frontend_once.
  - intros eng module. apply once_intro; [apply compile_link_keeps_frontend_ir |].
    by apply compile_link_quiet_when.
Qed.

Lemma run_call_frontend_final self c p :
  once (frontend_ir self) (fun e => e = EvFrontend self) p (run_call W self c p).
Proof.
  apply run_call_preserves; [typeclasses eauto | ..].
  - apply _get_ir_from_frontend_once.
  - apply once_intro; [apply _get_execution_engine_keeps_frontend_ir |].
    by apply _get_execution_engine_quiet.
  - apply _get_optimized_module_frontend_once.
  - apply compile_frontend_once.
  - intros f input n preds. apply once_intro; [apply call_entry_keeps, _ |].
    by apply call_entry_quiet.
  - intros r. apply once_intro; [apply call_out_keeps, _ | by apply call_out_quiet].
  - intros path. apply once_intro; [apply read_text_keeps, _ | by apply read_text_quiet].
  - intros path text. apply once_intro; [apply write_text_keeps, _ | by apply write_text_quiet].
  - intros m. apply once_intro; [apply set_IR_module_keeps_frontend_ir | apply setattr_quiet].
Qed.

(** X3: Once the frontend module is cached, no method call on the
    instance replaces it (not even [load_model_ir]) and
    [ir_from_model_file] is never called again. *)
Theorem frontend_ir_is_final self (cs : list (method_call W)) p ir :
  frontend_ir self p = Some ir ->
  let q := run_calls W self cs p in
  frontend_ir self q = Some ir /\
  occurrences (EvFrontend self) (trace q) = occurrences (EvFrontend self) (trace p).
Proof.
  intros Hi q.
  apply (run_calls_preserves (once (frontend_ir self) (fun e => e = EvFrontend self))
           self cs p); [| done].
  intros c r _. apply run_call_frontend_final.
Qed.

(** ** A cached optimized module spares the frontend and the optimizer *)

Lemma set_IR_module_steady self ev m :
  preserves (steady self ev) (setattr (W:=W) (set_IR_module W m) self).
Proof.
  intros p Hp. split; [| apply setattr_quiet].
  unfold setattr, optimized_ir in *. destruct (models p !! self) as [o |] eqn:Ho; simpl.
  - rewrite lookup_insert_eq. simpl. by eexists.
  - by rewrite Ho.
Qed.

Lemma run_call_steady self ev c p :
  upstream self ev -> public c -> steady self ev p (run_call W self c p).
Proof.
  intros Hev Hpub.
  assert (Hup : forall e, (forall s, e <> EvFrontend s) ->
                  (forall s site, e <> EvParseAssembly s site) ->
                  (forall s, e <> EvVerify s) -> (forall s, e <> EvRunPasses s) -> e <> ev).
  { intros e H1 H2 H3 H4 ->. destruct Hev as [-> | [-> | [-> | ->]]];
      [by eapply H1 | by eapply H2 | by eapply H3 | by eapply H4]. }
  assert (Hload : EvParseAssembly self LoadedIR <> ev).
  { intros <-. by destruct Hev as [? | [? | [? | ?]]]. }
  destruct c; simpl; try done.
  - unfold num_feature. split_body.
  - unfold save_model_ir.
    split_body_with ltac:(first
      [ apply _get_optimized_module_steady
      | apply steady_intro; [apply write_text_keeps, _ | apply write_text_quiet; by apply Hup] ]).
  - unfold load_model_ir.
    split_body_with ltac:(first
      [ apply set_IR_module_steady
      | apply steady_intro; [apply read_text_keeps, _ | apply read_text_quiet; by apply Hup]
      | apply steady_intro; [apply call_out_keeps, _ | by apply call_out_quiet ] ]).
  - by apply compile_steady.
  - apply predict_preserves; [typeclasses eauto | by apply compile_steady |].
    intros f input n preds. apply steady_intro; [apply call_entry_keeps, _ |].
    apply call_entry_quiet. intros addr count. by apply Hup.
Qed.

(** X4: Once an optimized module is cached, by the optimizer or by
    [load_model_ir], no sequence of calls of the public methods
    ([num_feature], [save_model_ir], [load_model_ir], [compile],
    [predict]) leaves the instance without one, and none of them calls
    the frontend, parses the frontend module, verifies or optimizes
    again. *)
Theorem optimized_ir_spares_pipeline self (cs : list (method_call W)) p :
  is_Some (optimized_ir self p) ->
  Forall public cs ->
  let q := run_calls W self cs p in
  is_Some (optimized_ir self q) /\
  forall ev, upstream self ev -> occurrences ev (trace q) = occurrences ev (trace p).
Proof.
  intros Ho Hpub q.
  assert (H : forall ev, upstream self ev -> steady self ev p q).
  { intros ev Hev. apply run_calls_preserves; [typeclasses eauto |].
    intros c r Hc. apply run_call_steady; [done |].
    by apply (proj1 (Forall_forall _ _) Hpub). }
  split.
  - by apply (H (EvFrontend self) (or_introl eq_refl)).
  - intros ev Hev. by apply (H ev Hev).
Qed.

(** ** [load_model_ir] *)

(** X5: When the file exists and its text parses, [load_model_ir]
    returns and the parsed module is the optimized module from then on,
    whatever was cached before; the frontend module, the engine and the
    entry point are as before, and [_get_optimized_module] now returns
    the loaded module without any external call. *)
Theorem load_model_ir_replaces self filepath text module p :
  is_Some (models p !! self) ->
  files p !! filepath = Some text ->
  parse_assembly W text = Ok module ->
  let r := load_model_ir W self filepath p in
  r.1 = Ok tt /\
  optimized_ir self r.2 = Some module /\
  frontend_ir self r.2 = frontend_ir self p /\
  engine self r.2 = engine self p /\
  c_entry_func self r.2 = c_entry_func self p /\
  files r.2 = files p /\
  _get_optimized_module W self r.2 = (Ok module, r.2).
Proof.
  intros [o Ho] Hfile Hparse r.
  assert (E : r = (Ok tt,
                   set_models (<[self := set_IR_module W module o]> (models p))
                     (set_trace (EvParseAssembly self LoadedIR :: EvReadText filepath :: trace p) p))).
  { subst r. unfold load_model_ir, bind, read_text, call_out, setattr. simpl.
    rewrite Hfile. simpl. rewrite Hparse. simpl. by rewrite Ho. }
  rewrite E. simpl.
  assert (Hopt : optimized_ir self
            (set_models (<[self := set_IR_module W module o]> (models p))
               (set_trace (EvParseAssembly self LoadedIR :: EvReadText filepath :: trace p) p))
            = Some module).
  { unfold optimized_ir. simpl. by rewrite lookup_insert_eq. }
  repeat split; try done.
  - unfold frontend_ir. simpl. by rewrite lookup_insert_eq, Ho.
  - unfold engine. simpl. by rewrite lookup_insert_eq, Ho.
  - unfold c_entry_func. simpl. by rewrite lookup_insert_eq, Ho.
  - by apply _get_optimized_module_cached.
Qed.

(** When there is no file at the path, [load_model_ir] raises
    [FileNotFoundError] before anything is parsed: the process is as
    before except that the read is on the trace. *)
Lemma load_model_ir_missing_file self filepath p :
  files p !! filepath = None ->
  load_model_ir W self filepath p =
    (Raise (FileNotFoundError filepath), set_trace (EvReadText filepath :: trace p) p).
Proof.
  intros Hfile. unfold load_model_ir, bind, read_text. by rewrite Hfile.
Qed.

(** X6: Save, then load.  After [save_model_ir] has returned on one
    instance, [load_model_ir] of the same path on any instance (the same
    one or another) finds the file, reads the text of the module that was
    saved and hands exactly that text to [llvm.parse_assembly]: if it
    parses, the parsed module becomes the optimized module of the loading
    instance; if the parser raises, that exception is raised. *)
Theorem save_then_load self other filepath p q :
  save_model_ir W self filepath p = (Ok tt, q) ->
  is_Some (models q !! other) ->
  exists saved,
    optimized_ir self q = Some saved /\
    files q !! filepath = Some (module_str W saved) /\
    (forall module, parse_assembly W (module_str W saved) = Ok module ->
       (load_model_ir W other filepath q).1 = Ok tt /\
       optimized_ir other (load_model_ir W other filepath q).2 = Some module) /\
    (forall e, parse_assembly W (module_str W saved) = Raise e ->
       (load_model_ir W other filepath q).1 = Raise e).
Proof.
  intros Es Hother. unfold save_model_ir in Es.
  apply bind_Ok_inv in Es as (saved & p1 & E1 & E2).
  pose proof (_get_optimized_module_Ok _ _ _ _ E1) as Hsaved.
  unfold write_text in E2. case_match; simplify_eq.
  exists saved.
  assert (Hfile : files (set_files (<[filepath := module_str W saved]> (files p1))
                           (set_trace (EvWriteText filepath :: trace p1) p1)) !! filepath
                  = Some (module_str W saved)).
  { simpl. apply lookup_insert_eq. }
  split; [done |]. split; [done |]. split.
  - intros module Hparse. destruct Hother as [o Ho].
    unfold load_model_ir, bind, read_text, call_out, setattr.
    rewrite Hfile. simpl. rewrite Hparse. simpl in *. rewrite Ho. simpl.
    split; [done |]. unfold optimized_ir. simpl. by rewrite lookup_insert_eq.
  - intros e Hparse.
    unfold load_model_ir, bind, read_text, call_out.
    rewrite Hfile. simpl. by rewrite Hparse.
Qed.

(** ** The file system *)

(** A step that does not write. *)
Ltac no_write :=
  let p := fresh "p" in
  intros p;
  unfold keeps, getattr, getfield, setattr, call_out, engine_call, engine_query,
    new_engine, new_cfunc, read_text, call_entry, ret, raise, lift;
  repeat case_match; reflexivity.

Lemma _get_optimized_module_keeps_files self :
  preserves (keeps (fun p => files p)) (_get_optimized_module W self).
Proof. unfold _get_optimized_module, _get_ir_from_frontend. split_body_with no_write. Qed.

Lemma run_call_keeps_file self c x p :
  (forall path, c = CallSaveModelIR W path -> path <> x) ->
  files (run_call W self c p) !! x = files p !! x.
Proof.
  intros Hc.
  assert (Hsame : forall A (m : M W A),
            preserves (keeps (fun p => files p)) m -> files (m p).2 !! x = files p !! x).
  { intros A m Hm. by rewrite (Hm p). }
  destruct c; simpl.
  - apply Hsame. unfold num_feature. split_body_with no_write.
  - apply Hsame. unfold _get_ir_from_frontend. split_body_with no_write.
  - apply Hsame. unfold _get_execution_engine. split_body_with no_write.
  - apply Hsame, _get_optimized_module_keeps_files.
  - unfold save_model_ir.
    destruct (bind_state (_get_optimized_module W self)
                (fun module => write_text W filepath (module_str W module)) p)
      as [-> | (module & _ & ->)].
    + by rewrite (_get_optimized_module_keeps_files self p).
    + unfold write_text. case_match; simpl.
      * rewrite lookup_insert_ne by (by apply Hc).
        by rewrite (_get_optimized_module_keeps_files self p).
      * by rewrite (_get_optimized_module_keeps_files self p).
  - apply Hsame. unfold load_model_ir. split_body_with no_write.
  - apply Hsame. unfold compile, _get_optimized_module, _get_ir_from_frontend,
      _get_execution_engine. split_body_with no_write.
  - apply Hsame. unfold predict, compile, _get_optimized_module, _get_ir_from_frontend,
      _get_execution_engine. split_body_with no_write.
Qed.

(** X11: Only [save_model_ir] writes, and only the file it is given: a
    sequence of method calls leaves every file unchanged whose path is
    not the argument of a [save_model_ir] call of the sequence.  In
    particular [compile], [predict] and [load_model_ir] never write. *)
Theorem only_save_model_ir_writes self (cs : list (method_call W)) x p :
  (forall path, CallSaveModelIR W path ∈ cs -> path <> x) ->
  files (run_calls W self cs p) !! x = files p !! x.
Proof.
  intros Hcs.
  apply (run_calls_preserves (keeps (fun p => files p !! x)) self cs p).
  intros c q Hc. apply run_call_keeps_file. intros path ->. by apply Hcs.
Qed.

(** ** What [__init__] stores is constant *)

Global Instance descriptor_model_only self : ModelOnly (W:=W) (descriptor self).
Proof. by split. Qed.

Lemma setattr_keeps_descriptor self (upd : ModelObj W -> ModelObj W) :
  (forall o, model_file (upd o) = model_file o /\ _general_info (upd o) = _general_info o /\
             objective_transf (upd o) = objective_transf o) ->
  preserves (keeps (descriptor self)) (setattr upd self).
Proof.
  intros Hupd. apply setattr_keeps. intros p o Ho. unfold descriptor.
  rewrite lookup_after_setattr, Ho by done. simpl.
  destruct (Hupd o) as (-> & -> & ->). done.
Qed.

Ltac descriptor_leaf :=
  first [ apply setattr_keeps_descriptor; by intros ?
        | apply call_out_keeps, _ | apply engine_call_keeps, _
        | apply engine_query_keeps, _ | apply new_engine_keeps, _
        | apply new_cfunc_keeps, _ | apply read_text_keeps, _
        | apply write_text_keeps, _ | apply call_entry_keeps, _ ].

Lemma run_call_keeps_descriptor self c p :
  descriptor self (run_call W self c p) = descriptor self p.
Proof.
  change (keeps (descriptor self) p (run_call W self c p)).
  assert (Hf : preserves (keeps (descriptor self)) (_get_ir_from_frontend W self)).
  { unfold _get_ir_from_frontend. split_body_with descriptor_leaf. }
  assert (He : preserves (keeps (descriptor self)) (_get_execution_engine W self)).
  { unfold _get_execution_engine. split_body_with descriptor_leaf. }
  assert (Ho : preserves (keeps (descriptor self)) (_get_optimized_module W self)).
  { unfold _get_optimized_module. split_body_with ltac:(first [ apply Hf | descriptor_leaf ]). }
  apply run_call_preserves; try done; try (intros; descriptor_leaf).
  - typeclasses eauto.
  - apply compile_preserves; [typeclasses eauto | done | done |].
    intros eng module. unfold compile_link. split_body_with descriptor_leaf.
Qed.

(** X8: The model file, the general info and the objective transform of
    an instance are those [__init__] stored, whatever methods are called
    afterwards on this or on another instance; so [num_feature()] returns
    the same number for the whole life of the instance. *)
Theorem descriptor_is_constant (i self : nat) (cs : list (method_call W)) p :
  let q := run_calls W i cs p in
  descriptor self q = descriptor self p /\
  (num_feature W self q).1 = (num_feature W self p).1.
Proof.
  intros q.
  assert (Hd : descriptor self q = descriptor self p).
  { destruct (decide (i = self)) as [-> | Hne].
    - apply (run_calls_preserves (keeps (descriptor self)) self cs p).
      intros c r _. apply run_call_keeps_descriptor.
    - destruct (run_calls_frame i self cs p Hne) as [Hm _].
      unfold descriptor. subst q. by rewrite Hm. }
  split; [done |].
  unfold descriptor in Hd. unfold num_feature, bind, getfield, ret.
  destruct (models q !! self) as [o |], (models p !! self) as [o' |]; simpl in *;
    try done.
  injection Hd as _ Hinfo _. by rewrite Hinfo.
Qed.

(** ** [compile] called again and again *)

Global Instance memoized_preorder self : PreOrder (memoized (W:=W) self).
Proof.
  split.
  - intros p. split; [reflexivity |]. intros Hn _. left.
    split; [done |]. split; [done | reflexivity].
  - intros p q r [O1 M1] [O2 M2]. split; [by etrans |].
    intros Hn Hf. destruct (M1 Hn Hf) as [(Hq & Hd & Q1) | (Hq & G1)].
    + assert (Hfq : frontend_returns self q).
      { destruct Hf as (o & ir & Ho & Hir). unfold descriptor in Hd.
        rewrite Ho in Hd. simpl in Hd.
        destruct (models q !! self) as [o' |] eqn:E; simpl in Hd; [| done].
        exists o', ir. split; [done |]. injection Hd as -> _ _. done. }
      destruct (M2 Hq Hfq) as [(Hr & Hd2 & Q2) | (Hr & G2)].
      * left. split; [done |]. split; [congruence |]. unfold quiet in *. congruence.
      * right. split; [done |]. unfold grows_by, quiet in *. lia.
    + right. destruct Hq as [v Hv]. destruct (O2 v Hv) as [Hr Q2].
      split; [by eexists |]. unfold grows_by, quiet in *. lia.
Qed.

(** A step that neither touches the frontend cache nor calls the
    frontend. *)
Lemma memoized_intro {A} self (m : M W A) :
  preserves (keeps (frontend_ir self)) m ->
  preserves (keeps (descriptor self)) m ->
  preserves (quiet (fun e => e = EvFrontend self)) m ->
  preserves (memoized self) m.
Proof.
  intros Hk Hd Hq p. split; [by apply once_intro |].
  intros Hn _. left. split; [by rewrite (Hk p) |]. split; [apply Hd | apply Hq].
Qed.

(** The memoization itself: [_get_ir_from_frontend] on an empty cache
    calls the frontend once and caches what it returns. *)
Lemma _get_ir_from_frontend_memoized self :
  preserves (memoized self) (_get_ir_from_frontend W self).
Proof.
  intros p. split; [apply _get_ir_from_frontend_once |].
  intros Hn (o & ir & Ho & Hir). right.
  unfold frontend_ir in Hn. rewrite Ho in Hn. simpl in Hn.
  unfold _get_ir_from_frontend, bind, getattr, getfield, call_out, setattr, ret.
  repeat (first [rewrite Ho | rewrite Hn | rewrite Hir]; simpl). split.
  - unfold frontend_ir. simpl. rewrite lookup_insert_eq. simpl. by eexists.
  - unfold grows_by. simpl. rewrite tally_cons. case_decide; lia.
Qed.

Lemma _get_optimized_module_memoized self :
  preserves (memoized self) (_get_optimized_module W self).
Proof.
  unfold _get_optimized_module.
  split_body_with
    ltac:(first
      [ apply _get_ir_from_frontend_memoized
      | apply memoized_intro;
        [ auto with keeps_db typeclass_instances
        | descriptor_leaf
        | first [ by apply call_out_quiet | apply setattr_quiet ] ] ]).
Qed.

Lemma compile_memoized self : preserves (memoized self) (compile W self).
Proof.
  apply compile_preserves; [typeclasses eauto | ..].
  - apply memoized_intro.
    + apply _get_execution_engine_keeps_frontend_ir.
    + unfold _get_execution_engine. split_body_with descriptor_leaf.
    + by apply _get_execution_engine_quiet.
  - apply _get_optimized_module_memoized.
  - intros eng module. apply memoized_intro.
    + apply compile_link_keeps_frontend_ir.
    + unfold compile_link. split_body_with descriptor_leaf.
    + by apply compile_link_quiet_when.
Qed.

(** [N] calls of [compile], the caller catching what each raises. *)
Lemma run_calls_compile self n p :
  run_calls W self (replicate (S n) (CallCompile W)) p =
  run_calls W self (replicate n (CallCompile W)) (compile W self p).2.
Proof. reflexivity. Qed.

Lemma run_calls_compile_noop self n q :
  is_Some (entry_point self q) -> run_calls W self (replicate n (CallCompile W)) q = q.
Proof.
  intros H. induction n as [| n IH]; [done |].
  by rewrite run_calls_compile, (compile_noop _ _ H).
Qed.

Lemma run_calls_compile_preserves (R : relation (Process W)) `{!PreOrder R} self n p :
  preserves R (compile W self) -> R p (run_calls W self (replicate n (CallCompile W)) p).
Proof.
  intros Hc. apply run_calls_preserves; [done |].
  intros c q Hin. apply elem_of_replicate in Hin as [-> _]. apply Hc.
Qed.

Lemma run_calls_compile_grows self ev n p :
  upstream self ev ->
  occurrences ev (trace (run_calls W self (replicate n (CallCompile W)) p)) <=
    occurrences ev (trace p) + n.
Proof.
  intros Hev. revert p. induction n as [| n IH]; intros p; [simpl; lia |].
  rewrite run_calls_compile. specialize (IH (compile W self p).2).
  pose proof (compile_grows self ev Hev p) as Hg. unfold grows_by, occurrences in *. lia.
Qed.

(** C1 (amended): Idempotence of [compile].  For every instance and every
    N >= 1, write [many] for N calls of [compile()] in a row (the first
    exception ends the sequence) and [retried] for N calls of which the
    caller catches every exception.  When one call yields an entry point
    (a binding that is not null), both sequences end in the very same
    process state as that one call, hence with the same entry point
    object; and when the entry point is already present, [compile()]
    returns at once: no stage runs and the state, trace included, is
    unchanged.  In a row, the N calls add at most one call of the frontend
    adapter ([ir_from_model_file]) and at most one of each step of the
    optimizer (parse, verify, optimize) to the trace.  With retries, each
    call adds at most one of each, so at most N in all; the frontend
    adapter is still called at most once whenever it returns, because its
    result is cached; and when the first call leaves the optimized module
    cached, no step of the optimizer is repeated either.  Without an entry
    point, also when the cached binding is null, [compile()] does not
    return at once: it goes through the engine, the optimized module and
    the link step. *)
Theorem compile_idempotent self (N : nat) p :
  1 <= N ->
  let single := compile W self p in
  let many := repeat_call W N (compile W self) p in
  let retried := run_calls W self (replicate N (CallCompile W)) p in
  (forall f, entry_point self single.2 = Some f ->
     many = single /\ retried = single.2 /\ entry_point self retried = Some f) /\
  (forall q, is_Some (entry_point self q) -> compile W self q = (Ok tt, q)) /\
  (single.1 <> Ok tt -> many = single) /\
  (forall ev, upstream self ev ->
     occurrences ev (trace many.2) <= occurrences ev (trace p) + 1) /\
  (forall ev, upstream self ev ->
     occurrences ev (trace retried) <= occurrences ev (trace p) + N) /\
  (frontend_returns self p ->
     occurrences (EvFrontend self) (trace retried) <=
       occurrences (EvFrontend self) (trace p) + 1) /\
  (is_Some (optimized_ir self single.2) -> forall ev, upstream self ev ->
     occurrences ev (trace retried) <= occurrences ev (trace p) + 1) /\
  (forall q, is_Some (models q !! self) -> entry_point self q = None ->
     compile W self q =
       (let* exec_engine := _get_execution_engine W self in
        let* module := _get_optimized_module W self in
        compile_link W self exec_engine module) q).
Proof.
  intros HN single many retried. destruct N as [| n]; [lia |].
  assert (Hstop : single.1 <> Ok tt -> many = single).
  { intros Hno. by apply repeat_call_stops. }
  assert (Hretried : retried = run_calls W self (replicate n (CallCompile W)) single.2).
  { apply run_calls_compile. }
  split; [| split; [| split; [| split; [| split; [| split; [| split]]]]]].
  - intros f Hf.
    assert (Hmany : many = single).
    { destruct single as [r q] eqn:E. simpl in Hf. destruct r as [[] | e |].
      - subst many. simpl. rewrite (bind_Ok _ _ _ _ _ E).
        apply repeat_compile_noop. by eexists.
      - apply Hstop. simpl. congruence.
      - apply Hstop. simpl. congruence. }
    assert (Hsame : retried = single.2).
    { rewrite Hretried. apply run_calls_compile_noop. by eexists. }
    split; [done |]. split; [done |]. by rewrite Hsame.
  - apply compile_noop.
  - done.
  - intros ev Hev. by apply repeat_compile_grows.
  - intros ev Hev. by apply run_calls_compile_grows.
  - intros Hf.
    destruct (run_calls_compile_preserves (memoized self) self (S n) p (compile_memoized self))
      as [Honce Hmemo]. fold retried in Honce, Hmemo.
    destruct (frontend_ir self p) as [ir |] eqn:Hir.
    + destruct (Honce ir Hir) as [_ Hq]. unfold quiet, occurrences in *. lia.
    + destruct (Hmemo eq_refl Hf) as [(_ & _ & Hq) | (_ & Hg)];
        unfold quiet, grows_by, occurrences in *; lia.
  - intros Ho ev Hev.
    pose proof (run_calls_compile_preserves (steady self ev) self n single.2
                  (compile_steady self ev Hev) Ho) as [_ Hq].
    rewrite <- Hretried in Hq.
    pose proof (compile_grows self ev Hev p) as Hg. fold single in Hg.
    unfold quiet, grows_by, occurrences in *. lia.
  - intros q [o Ho] Hnone. rewrite compile_eq.
    assert (Eg : getattr obj_c_entry_func cls_c_entry_func self q =
                 (Ok (lookup_attr (obj_c_entry_func o) (cls_c_entry_func (model_class q))), q)).
    { unfold getattr. by rewrite Ho. }
    rewrite (bind_Ok _ _ _ _ _ Eg).
    unfold entry_point, c_entry_func in Hnone. rewrite Ho in Hnone. simpl in Hnone.
    unfold truthy_cfunc. destruct (lookup_attr _ _) as [g |]; [| done].
    by destruct (cf_addr g =? 0)%Z.
Qed.

(** ** Predicting again, and loading after compiling *)

Lemma _to_1d_ndarray_no_fault (data : pyobj (float64 W)) : _to_1d_ndarray W data <> Fault.
Proof.
  rewrite _to_1d_ndarray_eq.
  destruct (accepted_array W data) as [a |].
  - destruct (shape a) as [| n [| k [| ? ?]]]; try done.
    by destruct (as_float64 _ _).
  - by destruct data.
Qed.

Lemma entry_point_Some self q f :
  entry_point self q = Some f ->
  c_entry_func self q = Some f /\ (cf_addr f =? 0)%Z = false.
Proof.
  unfold entry_point. destruct (c_entry_func self q) as [g |]; [| done].
  destruct (cf_addr g =? 0)%Z eqn:Hz; [done |]. intros. by simplify_eq.
Qed.

(** [predict] on a compiled instance: the validation decides. *)
Lemma predict_compiled self data q f o :
  entry_point self q = Some f ->
  models q !! self = Some o ->
  predict W self data q =
    match _to_1d_ndarray W data with
    | Ok (buf, n) =>
        (Ok (apply_objective W (objective_transf o)
               (imap (native_cell W (cf_addr f) buf (c_int (Z.of_nat n)))
                  (replicate n (f64_zero W)))),
         set_trace (EvNativeCall self (cf_addr f) (Z.of_nat n) :: trace q) q)
    | Raise e => (Raise e, q)
    | Fault => (Fault, q)
    end.
Proof.
  intros He Ho. destruct (entry_point_Some _ _ _ He) as [Hf Hz].
  assert (Ec : compile W self q = (Ok tt, q)) by (apply compile_noop; by eexists).
  destruct (_to_1d_ndarray W data) as [[buf n] | e |] eqn:Ed.
  - rewrite (predict_call self data q q buf n f o Ec Ed Hf Ho). by rewrite Hz.
  - by apply predict_invalid.
  - by destruct (_to_1d_ndarray_no_fault data).
Qed.

(** X10: A call of [predict] that returns leaves the entry point
    present, so that every later [predict] on the instance is free of
    compilation: [compile()] returns at once, and the later call either
    changes nothing (the input is refused) or adds the one call of the
    entry point to the trace. *)
Theorem predict_again_skips_compile self data data' p preds q :
  predict W self data p = (Ok preds, q) ->
  exists f,
    entry_point self q = Some f /\
    compile W self q = (Ok tt, q) /\
    ((predict W self data' q).2 = q \/
     exists n, (predict W self data' q).2 =
                 set_trace (EvNativeCall self (cf_addr f) n :: trace q) q).
Proof.
  intros E. unfold predict in E.
  apply bind_Ok_inv in E as ([] & q1 & Ec & E).
  apply bind_Ok_inv in E as (flat & q2 & Ef & E).
  unfold lift in Ef. simplify_eq.
  apply bind_Ok_inv in E as (entry & q3 & Eg & E).
  apply getattr_Ok_inv in Eg as (-> & o & Ho & ->).
  destruct (lookup_attr _ _) as [f |] eqn:Hf; [| done].
  apply bind_Ok_inv in E as (written & q4 & Ecall & E).
  apply bind_Ok_inv in E as (transf & q5 & Et & E).
  unfold call_entry, call_out in Ecall.
  destruct (cf_addr f =? 0)%Z eqn:Hz; [done |].
  injection Ecall as _ <-.
  unfold getfield in Et. simpl in Et. rewrite Ho in Et. injection Et as _ <-.
  unfold ret in E. injection E as _ <-.
  set (q := set_trace _ q2).
  assert (He : entry_point self q = Some f).
  { unfold entry_point, c_entry_func. simpl. rewrite Ho. simpl. by rewrite Hf, Hz. }
  exists f. split; [done |]. split; [apply compile_noop; by eexists |].
  rewrite (predict_compiled self data' q f o He Ho).
  destruct (_to_1d_ndarray W data') as [[buf n] | e |]; simpl; eauto.
Qed.

Lemma load_model_ir_keeps_c_entry_func self filepath :
  preserves (keeps (c_entry_func self)) (load_model_ir W self filepath).
Proof. unfold load_model_ir. split_body; auto with keeps_db typeclass_instances. Qed.

Lemma load_model_ir_keeps_descriptor self filepath :
  preserves (keeps (descriptor self)) (load_model_ir W self filepath).
Proof. unfold load_model_ir. split_body_with descriptor_leaf. Qed.

(** X7: Loading after compiling changes no prediction.  With the entry
    point present, [load_model_ir] (whether it returns or raises) leaves
    the entry point as it is, [compile()] stays a no-op, so the loaded
    module is never linked, and [predict] returns for every input what it
    returned before the load. *)
Theorem load_after_compile_is_inert self filepath data p f :
  entry_point self p = Some f ->
  let q := (load_model_ir W self filepath p).2 in
  entry_point self q = Some f /\
  compile W self q = (Ok tt, q) /\
  (predict W self data q).1 = (predict W self data p).1.
Proof.
  intros He q.
  assert (Hq : entry_point self q = Some f).
  { pose proof (keeps_entry_point self _ (load_model_ir_keeps_c_entry_func self filepath) p)
      as K. unfold keeps in K. subst q. by rewrite K. }
  split; [done |]. split; [apply compile_noop; by eexists |].
  destruct (entry_point_Some _ _ _ He) as [Hf _].
  destruct (entry_point_Some _ _ _ Hq) as [Hf' _].
  destruct (c_entry_func_Some _ _ _ Hf) as (o & Ho & _).
  destruct (c_entry_func_Some _ _ _ Hf') as (o' & Ho' & _).
  assert (Ht : objective_transf o' = objective_transf o).
  { pose proof (load_model_ir_keeps_descriptor self filepath p) as K.
    unfold keeps, descriptor in K. fold q in K. rewrite Ho, Ho' in K. simpl in K.
    by injection K. }
  rewrite (predict_compiled self data q f o' Hq Ho'),
    (predict_compiled self data p f o He Ho), Ht.
  by destruct (_to_1d_ndarray W data) as [[buf n] | e |].
Qed.

(** ** Construction *)

(** X9: [Model(model_file)] on a process whose class object is as the
    class statement left it: when the model file parses and its objective
    is known, the call returns a new instance under an identity not used
    before, with the parsed feature count and without any cached
    attribute; every instance that existed keeps its [__dict__], and no
    external call of the pipeline is made.  When the parser or the
    objective table raises, no instance is created. *)
Theorem Model_init_fresh file info transf p :
  parse_model_file W file = Ok info ->
  get_objective_func W (objective info) = Ok transf ->
  model_class p = Model_class W ->
  heap_wf p ->
  let r := Model_init W file p in
  let self := next_id p in
  r.1 = Ok self /\
  models p !! self = None /\
  frontend_ir self r.2 = None /\ optimized_ir self r.2 = None /\
  engine self r.2 = None /\ c_entry_func self r.2 = None /\
  (num_feature W self r.2).1 = Ok (max_feature_idx info + 1)%Z /\
  (forall j, j <> self -> models r.2 !! j = models p !! j) /\
  trace r.2 = trace p /\ files r.2 = files p /\ engines r.2 = engines p /\
  heap_wf r.2.
Proof.
  intros Hparse Hobj Hcls Hwf r self. subst r self.
  unfold Model_init, bind, lift. rewrite Hparse, Hobj. simpl.
  unfold frontend_ir, optimized_ir, engine, c_entry_func, num_feature, bind, getfield, ret.
  simpl. rewrite !lookup_insert_eq, Hcls. simpl.
  split; [done |]. split; [by apply Hwf |].
  do 5 (split; [done |]).
  split; [intros j Hj; by rewrite lookup_insert_ne |].
  do 3 (split; [done |]).
  intros i Hi. simpl in *. split.
  - rewrite lookup_insert_ne by lia. apply Hwf. lia.
  - apply Hwf. lia.
Qed.

Lemma Model_init_fails file p :
  (forall e, parse_model_file W file = Raise e -> Model_init W file p = (Raise e, p)) /\
  (forall info e, parse_model_file W file = Ok info ->
     get_objective_func W (objective info) = Raise e -> Model_init W file p = (Raise e, p)).
Proof.
  unfold Model_init, bind, lift. split.
  - by intros e ->.
  - by intros info e -> ->.
Qed.

(** ** Identities stay fresh *)

Global Instance wf_step_preorder : PreOrder (wf_step (W:=W)).
Proof.
  split.
  - intros p Hp. exact Hp.
  - intros p q r H1 H2 Hp. apply H2, H1, Hp.
Qed.

Lemma setattr_wf upd self : preserves wf_step (setattr (W:=W) upd self).
Proof.
  intros p Hp. unfold setattr. destruct (models p !! self) as [o |] eqn:Ho; [| done].
  intros i Hi. simpl in *. destruct (Hp i Hi) as [Hm He]. split; [| done].
  rewrite lookup_insert_ne; [done |]. intros ->. congruence.
Qed.

Lemma engine_call_wf ev eng method : preserves wf_step (engine_call W ev eng method).
Proof.
  intros p Hp. unfold engine_call. destruct (engines p !! eng) as [e |] eqn:He; [| done].
  destruct (method e); try done.
  intros i Hi. simpl in *. destruct (Hp i Hi) as [Hm Hn]. split; [done |].
  rewrite lookup_insert_ne; [done |]. intros ->. congruence.
Qed.

Lemma new_engine_wf e : preserves wf_step (new_engine W e).
Proof.
  intros p Hp i Hi. unfold new_engine in *. simpl in *.
  destruct (Hp i) as [Hm Hn]; [lia |]. split; [done |].
  rewrite lookup_insert_ne; [done | lia].
Qed.

Lemma new_cfunc_wf addr : preserves wf_step (new_cfunc W addr).
Proof. intros p Hp i Hi. unfold new_cfunc in *. simpl in *. apply Hp. lia. Qed.

Lemma same_heap_wf {A} (m : M W A) :
  (forall p, models (m p).2 = models p /\ engines (m p).2 = engines p /\
             next_id (m p).2 = next_id p) ->
  preserves wf_step m.
Proof.
  intros H p Hp i Hi. destruct (H p) as (-> & -> & Hn). apply Hp. by rewrite <- Hn.
Qed.

Ltac wf_leaf :=
  first [ apply setattr_wf | apply engine_call_wf | apply new_engine_wf | apply new_cfunc_wf
        | apply same_heap_wf; intros ?;
          unfold call_out, engine_query, read_text, write_text, call_entry, getattr, getfield;
          repeat case_match; done ].

Lemma run_call_wf self c p : heap_wf p -> heap_wf (run_call W self c p).
Proof.
  change (wf_step p (run_call W self c p)).
  assert (Hf : preserves wf_step (_get_ir_from_frontend W self)).
  { unfold _get_ir_from_frontend. split_body_with wf_leaf. }
  assert (He : preserves wf_step (_get_execution_engine W self)).
  { unfold _get_execution_engine. split_body_with wf_leaf. }
  assert (Ho : preserves wf_step (_get_optimized_module W self)).
  { unfold _get_optimized_module. split_body_with ltac:(first [ apply Hf | wf_leaf ]). }
  apply run_call_preserves; try done; try (intros; wf_leaf).
  - typeclasses eauto.
  - apply compile_preserves; [typeclasses eauto | done | done |].
    intros eng module. unfold compile_link. split_body_with wf_leaf.
Qed.

(** Object identities are never reused: in a process where every
    instance and engine has an identity below the next free one, this
    stays so after any sequence of method calls. *)
Lemma identities_stay_fresh self (cs : list (method_call W)) p :
  heap_wf p -> heap_wf (run_calls W self cs p).
Proof.
  apply (run_calls_preserves wf_step self cs p).
  intros c q _ Hq. by apply run_call_wf.
Qed.

(** ** What a failing call leaves behind *)

Lemma on_failure_bind {A B} (R : relation (Process W)) `{!PreOrder R}
    (m : M W A) (k : A -> M W B) :
  preserves R m -> (forall a, on_failure R (k a)) -> on_failure R (bind m k).
Proof.
  intros Hm Hk p. specialize (Hm p). unfold bind.
  destruct (m p) as [[a | e |] q] eqn:E; simpl in *; [| done | done].
  intros Hf. etrans; [exact Hm | by apply Hk].
Qed.

Lemma on_failure_setattr (R : relation (Process W)) `{!Reflexive R} upd self :
  on_failure R (setattr (W:=W) upd self).
Proof.
  intros p. unfold setattr. destruct (models p !! self); simpl; [by intros [] | done].
Qed.

Lemma on_failure_setattr_ret {A} (R : relation (Process W)) `{!Reflexive R} upd self (x : A) :
  on_failure R (let* _ := setattr (W:=W) upd self in ret x).
Proof.
  intros p. unfold bind, setattr, ret.
  destruct (models p !! self); simpl; [by intros [] | done].
Qed.

Lemma _get_ir_from_frontend_keeps_optimized_ir self :
  preserves (keeps (optimized_ir self)) (_get_ir_from_frontend W self).
Proof. unfold _get_ir_from_frontend. split_body; auto with keeps_db typeclass_instances. Qed.

(** X12: A failed [compile()] binds nothing.  The entry point is
    assigned by the last statement of [compile]: when the call raises or
    the process dies in any stage (engine construction, frontend,
    optimizer, linking), [_c_entry_func] is as it was before the call. *)
Theorem compile_failure_binds_nothing self p :
  ~ returned (compile W self p).1 ->
  c_entry_func self (compile W self p).2 = c_entry_func self p.
Proof.
  revert p. change (on_failure (keeps (c_entry_func self)) (compile W self)).
  rewrite compile_eq.
  apply on_failure_bind; [typeclasses eauto | |].
  { apply preserves_pure; [typeclasses eauto | apply getattr_state]. }
  intros entry. destruct (truthy_cfunc entry); [by intros p [] |].
  apply on_failure_bind; [typeclasses eauto | apply _get_execution_engine_keeps_c_entry_func |].
  intros eng.
  apply on_failure_bind; [typeclasses eauto | apply _get_optimized_module_keeps_c_entry_func |].
  intros module. unfold compile_link.
  repeat (apply on_failure_bind;
          [typeclasses eauto | auto with keeps_db typeclass_instances | intros ?]).
  apply on_failure_setattr, _.
Qed.

(** X13: A module that does not come out of the optimizer is not
    cached.  [_get_optimized_module] assigns [_IR_module] after
    [module.verify()] and the passes: when the call raises (the frontend
    fails, its text does not parse, or verification fails), [_IR_module]
    is as before, and so are the engine and the entry point. *)
Theorem optimizer_failure_caches_nothing self p :
  ~ returned (_get_optimized_module W self p).1 ->
  let q := (_get_optimized_module W self p).2 in
  optimized_ir self q = optimized_ir self p /\
  engine self q = engine self p /\
  c_entry_func self q = c_entry_func self p.
Proof.
  intros Hf q. split; [| split].
  - revert p Hf q.
    change (on_failure (keeps (optimized_ir self)) (_get_optimized_module W self)).
    unfold _get_optimized_module.
    apply on_failure_bind; [typeclasses eauto | |].
    { apply preserves_pure; [typeclasses eauto | apply getattr_state]. }
    intros [module |]; [by intros p [] |].
    apply on_failure_bind;
      [typeclasses eauto | apply _get_ir_from_frontend_keeps_optimized_ir |].
    intros ir.
    repeat (apply on_failure_bind;
            [typeclasses eauto | by apply call_out_keeps, _ | intros ?]).
    apply on_failure_setattr_ret, _.
  - apply _get_optimized_module_keeps_engine.
  - apply _get_optimized_module_keeps_c_entry_func.
Qed.

(** X14: [save_model_ir] writes after it has the optimized module: when
    the call does not return, no file has been written. *)
Theorem save_model_ir_failure_writes_nothing self filepath p :
  ~ returned (save_model_ir W self filepath p).1 ->
  files (save_model_ir W self filepath p).2 = files p.
Proof.
  revert p. change (on_failure (keeps (fun p => files p)) (save_model_ir W self filepath)).
  unfold save_model_ir.
  apply on_failure_bind; [typeclasses eauto | apply _get_optimized_module_keeps_files |].
  intros module p. unfold write_text, keeps. case_match; simpl; [by intros [] | done].
Qed.

(** ** The layout of the input buffer *)

Lemma concat_row {A} (k : nat) (rows : list (list A)) (i : nat) (r : list A) :
  Forall (fun r => length r = k) rows ->
  rows !! i = Some r ->
  take k (drop (i * k) (concat rows)) = r.
Proof.
  revert i. induction rows as [| r0 rows IH]; intros i Hall Hi; [done |].
  apply Forall_cons in Hall as [Hr0 Hall]. destruct i as [| i].
  - injection Hi as ->. simpl. by apply take_app_length'.
  - change (concat (r0 :: rows)) with (r0 ++ concat rows)%list.
    change (S i * k) with (k + i * k).
    rewrite (drop_app_add' r0 (concat rows) k (i * k)) by done.
    by apply IH.
Qed.

Lemma length_concat_rows {A} (k : nat) (rows : list (list A)) :
  Forall (fun r => length r = k) rows -> length (concat rows) = length rows * k.
Proof.
  induction 1 as [| r rows Hr _ IH]; [done |].
  simpl. rewrite length_app, IH, Hr. lia.
Qed.

(** X15: A list of [n >= 1] rows of [k] floats each passes the
    validation; the buffer handed to the entry point holds [n * k]
    doubles, the count is [n], and row [i] occupies the positions
    [i*k .. i*k + k - 1] of the buffer. *)
Theorem list_of_rows_layout (k : nat) (rows : list (list (float64 W))) :
  rows <> [] ->
  Forall (fun r => length r = k) rows ->
  _to_1d_ndarray W (PyList (py_row <$> rows)) = Ok (concat rows, length rows) /\
  length (concat rows) = length rows * k /\
  forall i r, rows !! i = Some r -> take k (drop (i * k) (concat rows)) = r.
Proof.
  intros Hne Hall. split; [| split].
  - rewrite _to_1d_ndarray_eq. simpl. by rewrite (np_array_rows k).
  - by apply length_concat_rows.
  - intros i r. by apply concat_row.
Qed.

(** X16: A flat list of numbers, empty or not, is refused: numpy makes
    a 1-dimensional array of it and [_to_1d_ndarray] raises "Data must be
    2 dimensional, is 1 dimensional". *)
Theorem flat_list_is_refused (xs : list (float64 W)) :
  _to_1d_ndarray W (py_row xs) = Raise (ValueError (NotTwoDimensional 1)).
Proof.
  rewrite _to_1d_ndarray_eq. unfold py_row, accepted_array, np_array.
  fold (py_row xs). by rewrite np_asarray_row.
Qed.

End Facts.

(** * Worked instances in the small world *)

Import Host.


(** C1: in the world where no module passes verification, three calls
    of [compile()], each exception caught, call the frontend once but
    parse and verify three times; and on the instance with the null
    binding, whose first [compile()] returned, a second [compile()] links
    again and raises. *)
Lemma compile_retries_rerun_optimizer :
  let q := run_calls strict_world 0 (replicate 3 (CallCompile strict_world)) strict_fresh in
  (compile strict_world 0 strict_fresh).1 = Raise (LibraryError "verification failed") /\
  occurrences (EvFrontend 0) (trace q) = 1 /\
  occurrences (EvParseAssembly 0 FrontendIR) (trace q) = 3 /\
  occurrences (EvVerify 0) (trace q) = 3 /\
  (compile world 0 loaded).1 = Ok tt /\
  c_entry_func 0 null_bound = Some (mk_CFuncPtr 2 0) /\
  (compile world 0 null_bound).1 = Raise (LibraryError "module already added to this engine") /\
  occurrences (EvAddModule 0) (trace null_bound) = 1 /\
  occurrences (EvAddModule 0) (trace (compile world 0 null_bound).2) = 2.
Proof. vm_compute. by repeat split. Qed.

(** C1 at three calls on a fresh instance: in a row or retried, the same
    state as one call, one run of the passes, and a no-op on the compiled
    instance; and at three retried calls in the world where verification
    fails: one call of the frontend. *)
Lemma compile_idempotent_witness :
  1 <= 3 /\
  repeat_call world 3 (compile world 0) fresh = compile world 0 fresh /\
  run_calls world 0 (replicate 3 (CallCompile world)) fresh = compiled /\
  entry_point 0 (run_calls world 0 (replicate 3 (CallCompile world)) fresh) =
    Some (mk_CFuncPtr 2 4096) /\
  occurrences (EvRunPasses 0) (trace (repeat_call world 3 (compile world 0) fresh).2) <=
    occurrences (EvRunPasses 0) (trace fresh) + 1 /\
  compile world 0 compiled = (Ok tt, compiled) /\
  occurrences (EvFrontend 0)
    (trace (run_calls strict_world 0 (replicate 3 (CallCompile strict_world)) strict_fresh)) <=
    occurrences (EvFrontend 0) (trace strict_fresh) + 1.
Proof.
  assert (H3 : 1 <= 3) by lia.
  destruct (compile_idempotent world 0 3 fresh H3) as (Hsame & Hnoop & _ & Hrow & _).
  destruct (compile_idempotent strict_world 0 3 strict_fresh H3)
    as (_ & _ & _ & _ & _ & Hmemo & _).
  destruct (Hsame (mk_CFuncPtr 2 4096)) as (Heq & Hretried & Hentry); [vm_compute; reflexivity |].
  split; [exact H3 |].
  split; [exact Heq |].
  split; [exact Hretried |].
  split; [exact Hentry |].
  split; [apply Hrow; right; right; right; reflexivity |].
  split; [apply Hnoop; exists (mk_CFuncPtr 2 4096); vm_compute; reflexivity |].
  apply Hmemo. exists strict_obj, "forest_root".
  split; [vm_compute; reflexivity | reflexivity].
Defined.

(** C9 with two instances: compiling and predicting on the first leaves
    the second without any cached attribute. *)
Lemma instances_own_their_caches_witness :
  0 <> 1 /\
  let q := run_calls world 0 [CallCompile world; CallPredict world batch;
                              CallSaveModelIR world "model.ll"] two_models in
  c_entry_func 0 q = Some (mk_CFuncPtr 3 4096) /\
  model_class q = model_class two_models /\
  models q !! 1 = models two_models !! 1 /\
  frontend_ir 1 q = frontend_ir 1 two_models /\
  optimized_ir 1 q = optimized_ir 1 two_models /\
  engine 1 q = engine 1 two_models /\
  c_entry_func 1 q = c_entry_func 1 two_models.
Proof.
  assert (H01 : 0 <> 1) by lia.
  split; [exact H01 |].
  split; [vm_compute; reflexivity |].
  exact (instances_own_their_caches world 0 1
           [CallCompile world; CallPredict world batch; CallSaveModelIR world "model.ll"]
           two_models H01).
Defined.

(** C3: on a fresh instance [save_model_ir] fills two caches. *)
Lemma save_model_ir_fills_caches :
  let q := (save_model_ir world 0 "model.ll" fresh).2 in
  optimized_ir 0 fresh = None /\ optimized_ir 0 q = Some "forest_root" /\
  frontend_ir 0 fresh = None /\ frontend_ir 0 q = Some "forest_root".
Proof. vm_compute. by repeat split. Qed.

Lemma save_model_ir_effect_witness :
  save_model_ir world 0 "model.ll" compiled =
    (Ok tt, set_files (<["model.ll" := "forest_root"]> (files compiled))
              (set_trace (EvWriteText "model.ll" :: trace compiled) compiled)) /\
  save_model_ir world 0 "/readonly/model.ll" compiled =
    (Raise (OSError "/readonly/model.ll"),
     set_trace (EvWriteText "/readonly/model.ll" :: trace compiled) compiled) /\
  (exists m, optimized_ir 0 (save_model_ir world 0 "model.ll" fresh).2 = Some m /\
     is_Some (frontend_ir 0 (save_model_ir world 0 "model.ll" fresh).2) /\
     files (save_model_ir world 0 "model.ll" fresh).2 !! "model.ll" = Some (module_str world m)) /\
  engine 0 (save_model_ir world 0 "model.ll" fresh).2 = engine 0 fresh.
Proof.
  destruct (save_model_ir_effect world 0 "model.ll" compiled) as (_ & _ & Hcached & _).
  destruct (save_model_ir_effect world 0 "/readonly/model.ll" compiled) as (_ & _ & Hdenied & _).
  destruct (save_model_ir_effect world 0 "model.ll" fresh) as (Heng & _ & _ & Hmiss).
  split; [apply (Hcached "forest_root"); vm_compute; reflexivity |].
  split; [apply (Hdenied "forest_root"); vm_compute; reflexivity |].
  split; [apply Hmiss; vm_compute; reflexivity | exact Heng].
Defined.

(** C7 on the corrupted file. *)
Lemma load_model_ir_malformed_witness :
  files fresh !! "corrupt.ll" = Some "%garbage" /\
  parse_assembly world "%garbage" = Raise (LibraryError "LLVM IR parsing error") /\
  let r := load_model_ir world 0 "corrupt.ll" fresh in
  r.1 = Raise (LibraryError "LLVM IR parsing error") /\
  r.2 = set_trace (EvParseAssembly 0 LoadedIR :: EvReadText "corrupt.ll" :: trace fresh) fresh /\
  optimized_ir 0 r.2 = optimized_ir 0 fresh /\
  frontend_ir 0 r.2 = frontend_ir 0 fresh /\
  engine 0 r.2 = engine 0 fresh /\
  c_entry_func 0 r.2 = c_entry_func 0 fresh.
Proof.
  assert (Hfile : files fresh !! "corrupt.ll" = Some "%garbage") by (vm_compute; reflexivity).
  assert (Hparse : parse_assembly world "%garbage" = Raise (LibraryError "LLVM IR parsing error"))
    by (vm_compute; reflexivity).
  split; [exact Hfile |]. split; [exact Hparse |].
  exact (load_model_ir_malformed world 0 "corrupt.ll" "%garbage" _ fresh Hfile Hparse).
Defined.

(** C6: the loaded module defines [helper] only; [compile] returns and
    caches a null binding. *)
Lemma compile_without_forest_root :
  optimized_ir 0 loaded = Some "helper" /\
  (compile world 0 loaded).1 = Ok tt /\
  engines (compile world 0 loaded).2 !! 1 = Some ["helper"] /\
  get_function_address world ["helper"] "forest_root" = 0%Z /\
  c_entry_func 0 (compile world 0 loaded).2 = Some (mk_CFuncPtr 2 0).
Proof. vm_compute. by repeat split. Qed.

(** The engine of the loaded instance is built. *)
Lemma engine_loaded : _get_execution_engine world 0 loaded = (Ok 1, engine_built).
Proof.
  assert (H : (_get_execution_engine world 0 loaded).1 = Ok 1) by (vm_compute; reflexivity).
  unfold engine_built. destruct (_get_execution_engine world 0 loaded) as [r q]. simpl in H.
  rewrite H. reflexivity.
Defined.

Lemma module_loaded : _get_optimized_module world 0 engine_built = (Ok "helper", engine_built).
Proof.
  assert (H : (_get_optimized_module world 0 engine_built).1 = Ok "helper")
    by (vm_compute; reflexivity).
  assert (H' : (_get_optimized_module world 0 engine_built).2 = engine_built)
    by (vm_compute; reflexivity).
  destruct (_get_optimized_module world 0 engine_built) as [r q]. simpl in H, H'.
  rewrite H, H'. reflexivity.
Defined.

Lemma compile_binds_reported_address_witness :
  entry_point 0 loaded = None /\
  _get_execution_engine world 0 loaded = (Ok 1, engine_built) /\
  _get_optimized_module world 0 engine_built = (Ok "helper", engine_built) /\
  engines engine_built !! 1 = Some [] /\
  add_module world [] "helper" = Ok ["helper"] /\
  finalize_object world ["helper"] = Ok ["helper"] /\
  run_static_constructors world ["helper"] = Ok ["helper"] /\
  get_function_address world ["helper"] "forest_root" = 0%Z /\
  (compile world 0 loaded).1 = Ok tt /\
  c_entry_func 0 (compile world 0 loaded).2 =
    Some (mk_CFuncPtr (next_id engine_built) (get_function_address world ["helper"] "forest_root")) /\
  entry_point 0 (compile world 0 loaded).2 = None.
Proof.
  assert (Hnone : entry_point 0 loaded = None) by (vm_compute; reflexivity).
  assert (Hen : engines engine_built !! 1 = Some []) by (vm_compute; reflexivity).
  assert (Ha : add_module world [] "helper" = Ok ["helper"]) by reflexivity.
  assert (Hf : finalize_object world ["helper"] = Ok ["helper"]) by reflexivity.
  assert (Hr : run_static_constructors world ["helper"] = Ok ["helper"]) by reflexivity.
  assert (Hz : get_function_address world ["helper"] "forest_root" = 0%Z) by reflexivity.
  destruct (compile_binds_reported_address world 0 loaded 1 engine_built "helper" engine_built
              [] ["helper"] ["helper"] ["helper"]
              Hnone engine_loaded module_loaded Hen Ha Hf Hr)
    as (Hok & _ & _ & Hbind & Hnull & _).
  split; [exact Hnone |]. split; [exact engine_loaded |]. split; [exact module_loaded |].
  split; [exact Hen |]. split; [exact Ha |]. split; [exact Hf |]. split; [exact Hr |].
  split; [exact Hz |]. split; [exact Hok |]. split; [exact Hbind |].
  exact (Hnull Hz).
Defined.


(** C10 on [np.zeros((0, 3))]. *)
Lemma predict_zero_rows_witness :
  entry_point 0 compiled = Some (mk_CFuncPtr 2 4096) /\
  predict world 0 no_rows compiled =
    (Ok [], set_trace (EvNativeCall 0 4096 0 :: trace compiled) compiled).
Proof.
  assert (He : entry_point 0 compiled = Some (mk_CFuncPtr 2 4096)) by (vm_compute; reflexivity).
  split; [exact He |].
  exact (predict_zero_rows world 0 3 [] compiled _ He).
Defined.




(** C4: on a fresh instance the engine is built, and the frontend and the
    optimizer run, before the 1-dimensional input is refused. *)
Lemma predict_compiles_before_validating :
  let r := predict world 0 one_dim fresh in
  engine 0 fresh = None /\ trace fresh = [] /\
  r.1 = Raise (ValueError (NotTwoDimensional 1)) /\
  engine 0 r.2 = Some 1 /\
  trace r.2 =
    [EvGetFunctionAddress 0 "forest_root"; EvRunStaticConstructors 0; EvFinalizeObject 0;
     EvAddModule 0; EvRunPasses 0; EvVerify 0; EvParseAssembly 0 FrontendIR; EvFrontend 0;
     EvCreateEngine 0; EvParseAssembly 0 BackingModule; EvCreateTargetMachine 0;
     EvInitialize 0].
Proof. vm_compute. by repeat split. Qed.

Lemma predict_one_dimensional_witness :
  accepted_array world one_dim = Some (mk_ndarray [3] (BufFloat64 [1; 2; 3]%Z)) /\
  predict world 0 one_dim fresh =
    (let* _ := compile world 0 in raise (ValueError (NotTwoDimensional 1))) fresh /\
  native_calls (trace (predict world 0 one_dim fresh).2) = native_calls (trace fresh).
Proof.
  assert (Ha : accepted_array world one_dim = Some (mk_ndarray [3] (BufFloat64 [1; 2; 3]%Z)))
    by reflexivity.
  split; [exact Ha |].
  exact (predict_one_dimensional world 0 one_dim _ 3 fresh Ha eq_refl).
Defined.




(** ** Worked instances of the lifetime properties *)

Lemma entry_point_is_final_witness :
  entry_point 0 compiled = Some (mk_CFuncPtr 2 4096) /\
  entry_point 0 (run_calls world 0 later_calls compiled) = Some (mk_CFuncPtr 2 4096) /\
  tally (link_stage 0) (trace (run_calls world 0 later_calls compiled)) =
    tally (link_stage 0) (trace compiled).
Proof.
  assert (He : entry_point 0 compiled = Some (mk_CFuncPtr 2 4096)) by (vm_compute; reflexivity).
  split; [exact He |].
  exact (entry_point_is_final world 0 later_calls compiled _ He).
Defined.

Lemma engine_is_final_witness :
  engine 0 compiled = Some 1 /\
  engine 0 (run_calls world 0 later_calls compiled) = Some 1 /\
  tally (engine_setup 0) (trace (run_calls world 0 later_calls compiled)) =
    tally (engine_setup 0) (trace compiled).
Proof.
  assert (He : engine 0 compiled = Some 1) by (vm_compute; reflexivity).
  split; [exact He |].
  exact (engine_is_final world 0 later_calls compiled 1 He).
Defined.

Lemma frontend_ir_is_final_witness :
  frontend_ir 0 compiled = Some "forest_root" /\
  frontend_ir 0 (run_calls world 0 later_calls compiled) = Some "forest_root" /\
  occurrences (EvFrontend 0) (trace (run_calls world 0 later_calls compiled)) =
    occurrences (EvFrontend 0) (trace compiled).
Proof.
  assert (Hi : frontend_ir 0 compiled = Some "forest_root") by (vm_compute; reflexivity).
  split; [exact Hi |].
  exact (frontend_ir_is_final world 0 later_calls compiled _ Hi).
Defined.

Lemma optimized_ir_spares_pipeline_witness :
  is_Some (optimized_ir 0 loaded) /\
  Forall public calls_after_load /\
  is_Some (optimized_ir 0 (run_calls world 0 calls_after_load loaded)) /\
  occurrences (EvFrontend 0) (trace (run_calls world 0 calls_after_load loaded)) =
    occurrences (EvFrontend 0) (trace loaded) /\
  occurrences (EvRunPasses 0) (trace (run_calls world 0 calls_after_load loaded)) =
    occurrences (EvRunPasses 0) (trace loaded).
Proof.
  assert (Ho : is_Some (optimized_ir 0 loaded)) by (exists "helper"; vm_compute; reflexivity).
  assert (Hp : Forall public calls_after_load) by (repeat constructor).
  destruct (optimized_ir_spares_pipeline world 0 calls_after_load loaded Ho Hp) as [Hs Hq].
  split; [exact Ho |]. split; [exact Hp |]. split; [exact Hs |].
  split; [apply Hq; left; reflexivity | apply Hq; right; right; right; reflexivity].
Defined.

Lemma load_model_ir_replaces_witness :
  is_Some (models fresh !! 0) /\
  files fresh !! "other.ll" = Some "helper" /\
  parse_assembly world "helper" = Ok "helper" /\
  (load_model_ir world 0 "other.ll" fresh).1 = Ok tt /\
  optimized_ir 0 (load_model_ir world 0 "other.ll" fresh).2 = Some "helper".
Proof.
  assert (Hm : is_Some (models fresh !! 0)).
  { destruct (models fresh !! 0) as [o |] eqn:E; [by exists o |].
    vm_compute in E. discriminate E. }
  assert (Hf : files fresh !! "other.ll" = Some "helper") by (vm_compute; reflexivity).
  assert (Hp : parse_assembly world "helper" = Ok "helper") by (vm_compute; reflexivity).
  destruct (load_model_ir_replaces world 0 "other.ll" "helper" "helper" fresh Hm Hf Hp)
    as (H1 & H2 & _).
  split; [exact Hm |]. split; [exact Hf |]. split; [exact Hp |].
  split; [exact H1 | exact H2].
Defined.

Lemma load_model_ir_missing_file_witness :
  files fresh !! "missing.ll" = None /\
  load_model_ir world 0 "missing.ll" fresh =
    (Raise (FileNotFoundError "missing.ll"),
     set_trace (EvReadText "missing.ll" :: trace fresh) fresh).
Proof.
  assert (Hf : files fresh !! "missing.ll" = None) by (vm_compute; reflexivity).
  split; [exact Hf |].
  exact (load_model_ir_missing_file world 0 "missing.ll" fresh Hf).
Defined.

(** [save_model_ir] on the fresh instance returns. *)
Lemma save_fresh : save_model_ir world 0 "model.ll" fresh = (Ok tt, saved).
Proof.
  assert (H : (save_model_ir world 0 "model.ll" fresh).1 = Ok tt) by (vm_compute; reflexivity).
  unfold saved. destruct (save_model_ir world 0 "model.ll" fresh) as [r q]. simpl in H.
  rewrite H. reflexivity.
Defined.

Lemma save_then_load_witness :
  save_model_ir world 0 "model.ll" fresh = (Ok tt, saved) /\
  is_Some (models saved !! 0) /\
  exists module,
    files saved !! "model.ll" = Some (module_str world module) /\
    (load_model_ir world 0 "model.ll" saved).1 = Ok tt /\
    optimized_ir 0 (load_model_ir world 0 "model.ll" saved).2 = Some module.
Proof.
  assert (Hm : is_Some (models saved !! 0)).
  { destruct (models saved !! 0) as [o |] eqn:E; [by exists o |].
    vm_compute in E. discriminate E. }
  destruct (save_then_load world 0 0 "model.ll" fresh saved save_fresh Hm)
    as (m & Hs & Hfile & Hok & _).
  split; [exact save_fresh |]. split; [exact Hm |].
  assert (Hm' : m = "forest_root").
  { assert (Hs' : optimized_ir 0 saved = Some "forest_root") by (vm_compute; reflexivity).
    rewrite Hs' in Hs. injection Hs as <-. reflexivity. }
  exists m. split; [exact Hfile |].
  apply Hok. rewrite Hm'. vm_compute. reflexivity.
Defined.

Lemma load_after_compile_is_inert_witness :
  entry_point 0 compiled = Some (mk_CFuncPtr 2 4096) /\
  let q := (load_model_ir world 0 "other.ll" compiled).2 in
  optimized_ir 0 q = Some "helper" /\
  entry_point 0 q = Some (mk_CFuncPtr 2 4096) /\
  compile world 0 q = (Ok tt, q) /\
  (predict world 0 batch q).1 = (predict world 0 batch compiled).1.
Proof.
  assert (He : entry_point 0 compiled = Some (mk_CFuncPtr 2 4096)) by (vm_compute; reflexivity).
  split; [exact He |].
  split; [vm_compute; reflexivity |].
  exact (load_after_compile_is_inert world 0 "other.ll" batch compiled _ He).
Defined.

Lemma Model_init_fresh_witness :
  let p := initial_process world in
  parse_model_file world "model.txt" = Ok (mk_general_info 2 "regression") /\
  model_class p = Model_class world /\
  heap_wf p /\
  (Model_init world "model.txt" p).1 = Ok 0 /\
  c_entry_func 0 (Model_init world "model.txt" p).2 = None /\
  (num_feature world 0 (Model_init world "model.txt" p).2).1 = Ok 3%Z.
Proof.
  intros p.
  assert (Hparse : parse_model_file world "model.txt" = Ok (mk_general_info 2 "regression"))
    by (vm_compute; reflexivity).
  assert (Hobj : get_objective_func world (objective (mk_general_info 2 "regression"))
                 = Ok (fun x => x)) by (vm_compute; reflexivity).
  assert (Hwf : heap_wf p) by (intros i Hi; split; reflexivity).
  destruct (Model_init_fresh world "model.txt" _ _ p Hparse Hobj eq_refl Hwf)
    as (H1 & _ & _ & _ & _ & H6 & H7 & _).
  split; [exact Hparse |]. split; [reflexivity |]. split; [exact Hwf |].
  split; [exact H1 |]. split; [exact H6 | exact H7].
Defined.

(** [predict] on the fresh instance returns. *)
Lemma predict_fresh : predict world 0 batch fresh = (Ok [6; 15]%Z, predicted).
Proof.
  assert (H : (predict world 0 batch fresh).1 = Ok [6; 15]%Z) by (vm_compute; reflexivity).
  unfold predicted. destruct (predict world 0 batch fresh) as [r q]. simpl in H.
  rewrite H. reflexivity.
Defined.

Lemma predict_again_skips_compile_witness :
  predict world 0 batch fresh = (Ok [6; 15]%Z, predicted) /\
  exists f,
    entry_point 0 predicted = Some f /\
    compile world 0 predicted = (Ok tt, predicted) /\
    ((predict world 0 short_batch predicted).2 = predicted \/
     exists n, (predict world 0 short_batch predicted).2 =
                 set_trace (EvNativeCall 0 (cf_addr f) n :: trace predicted) predicted).
Proof.
  split; [exact predict_fresh |].
  exact (predict_again_skips_compile world 0 batch short_batch fresh _ _ predict_fresh).
Defined.

Lemma only_save_model_ir_writes_witness :
  (forall path, CallSaveModelIR world path ∈ calls_after_load -> path <> "other.ll") /\
  files (run_calls world 0 calls_after_load loaded) !! "other.ll" = files loaded !! "other.ll".
Proof.
  assert (H : forall path, CallSaveModelIR world path ∈ calls_after_load -> path <> "other.ll").
  { intros path Hin ->. unfold calls_after_load in Hin.
    repeat (apply elem_of_cons in Hin as [Hin | Hin]; [discriminate Hin |]).
    by apply elem_of_nil in Hin. }
  split; [exact H |].
  exact (only_save_model_ir_writes world 0 calls_after_load "other.ll" loaded H).
Defined.

Lemma compile_failure_binds_nothing_witness :
  (compile world 0 null_bound).1 = Raise (LibraryError "module already added to this engine") /\
  ~ returned (compile world 0 null_bound).1 /\
  c_entry_func 0 (compile world 0 null_bound).2 = c_entry_func 0 null_bound.
Proof.
  assert (Hr : (compile world 0 null_bound).1 =
               Raise (LibraryError "module already added to this engine"))
    by (vm_compute; reflexivity).
  assert (Hf : ~ returned (compile world 0 null_bound).1) by (rewrite Hr; simpl; tauto).
  split; [exact Hr |]. split; [exact Hf |].
  exact (compile_failure_binds_nothing world 0 null_bound Hf).
Defined.

Lemma optimizer_failure_caches_nothing_witness :
  (_get_optimized_module strict_world 0 strict_fresh).1 =
    Raise (LibraryError "verification failed") /\
  let q := (_get_optimized_module strict_world 0 strict_fresh).2 in
  frontend_ir 0 q = Some "forest_root" /\
  optimized_ir 0 q = optimized_ir 0 strict_fresh /\
  engine 0 q = engine 0 strict_fresh /\
  c_entry_func 0 q = c_entry_func 0 strict_fresh.
Proof.
  assert (Hr : (_get_optimized_module strict_world 0 strict_fresh).1 =
               Raise (LibraryError "verification failed")) by (vm_compute; reflexivity).
  assert (Hf : ~ returned (_get_optimized_module strict_world 0 strict_fresh).1)
    by (rewrite Hr; simpl; tauto).
  split; [exact Hr |]. split; [vm_compute; reflexivity |].
  exact (optimizer_failure_caches_nothing strict_world 0 strict_fresh Hf).
Defined.

Lemma save_model_ir_failure_writes_nothing_witness :
  ~ returned (save_model_ir strict_world 0 "model.ll" strict_fresh).1 /\
  files (save_model_ir strict_world 0 "model.ll" strict_fresh).2 = files strict_fresh.
Proof.
  assert (Hr : (save_model_ir strict_world 0 "model.ll" strict_fresh).1 =
               Raise (LibraryError "verification failed")) by (vm_compute; reflexivity).
  assert (Hf : ~ returned (save_model_ir strict_world 0 "model.ll" strict_fresh).1)
    by (rewrite Hr; simpl; tauto).
  split; [exact Hf |].
  exact (save_model_ir_failure_writes_nothing strict_world 0 "model.ll" strict_fresh Hf).
Defined.

Lemma list_of_rows_layout_witness :
  let rows : list (list (float64 world)) := [[1; 2; 3]; [4; 5; 6]]%Z in
  rows <> [] /\
  Forall (fun r => length r = 3) rows /\
  _to_1d_ndarray world (PyList (py_row <$> rows)) = Ok ([1; 2; 3; 4; 5; 6]%Z, 2) /\
  take 3 (drop (1 * 3) (concat rows)) = [4; 5; 6]%Z.
Proof.
  intros rows.
  assert (Hne : rows <> []) by discriminate.
  assert (Hall : Forall (fun r => length r = 3) rows) by (repeat constructor).
  destruct (list_of_rows_layout world 3 rows Hne Hall) as (H1 & _ & H3).
  split; [exact Hne |]. split; [exact Hall |]. split; [exact H1 |].
  apply (H3 1). reflexivity.
Defined.
